(** * Understanding PyTorch: linear regression by gradient descent

    A shallow embedding of the notebooks' code:
    - notebook 1 (NumPy): data generation, shuffled 80/20 split and the
      full-batch gradient-descent loop with hand-written gradients;
    - notebook 2 (tensors and autograd): the same loop with
      [loss.backward()], in-place updates under [no_grad] and [grad.zero_()];
    - notebook 5 (Dataset / DataLoader): [CustomDataset], [TensorDataset],
      [DataLoader], [random_split] and the training loop with validation.

    Arithmetic.  The arrays hold float64 (NumPy) or float32 (torch) numbers.
    They are modelled by real numbers: every statement below is about the
    exact arithmetic the floating-point code approximates, except where
    the rounding itself is the point; for that, [Float64GD] reads the
    NumPy loop in binary64.  A column array of shape (n, 1) is a [list R];
    the parameters [a] and [b], arrays of shape (1,), are single reals,
    broadcast against the columns. *)

From Stdlib Require Import Reals Lra List Arith Lia ZArith Permutation Bool.
From Stdlib Require Import Floats Uint63.
Import ListNotations.

Open Scope R_scope.

(** ** Arrays *)

Definition ndarray := list R.

(** Elementwise binary operation on two columns of the same shape. *)
Definition ewise2 (f : R -> R -> R) (u v : ndarray) : ndarray :=
  map (fun p => f (fst p) (snd p)) (combine u v).

(** [s + v], [s * v]: a one-element array broadcast against a column. *)
Definition bcast_add (s : R) (v : ndarray) : ndarray := map (fun t => s + t) v.
Definition bcast_mul (s : R) (v : ndarray) : ndarray := map (fun t => s * t) v.

(** [u + v], [u - v], [u * v], [v ** 2]. *)
Definition arr_add (u v : ndarray) : ndarray := ewise2 Rplus u v.
Definition arr_sub (u v : ndarray) : ndarray := ewise2 Rminus u v.
Definition arr_mul (u v : ndarray) : ndarray := ewise2 Rmult u v.
Definition arr_sq (v : ndarray) : ndarray := map (fun t => t ^ 2) v.

Definition arr_sum (v : ndarray) : R := fold_right Rplus 0 v.

(** [v.mean()].  On an empty array NumPy returns nan (with a warning);
    here the quotient [0 / 0] is 0, so what is said about a mean is meant
    for arrays with at least one entry. *)
Definition mean (v : ndarray) : R := arr_sum v / INR (length v).

(** The sum of [f] over a list, the form in which the batch sums are
    reasoned about. *)
Definition sum_over {A : Type} (f : A -> R) (l : list A) : R :=
  arr_sum (map f l).

(** ** Exceptions *)

Inductive error : Type :=
| InvalidArgument   (* a ValueError raised on a bad size or batch size *)
| IndexError
| AssertionError
| TypeError
| AttributeError.

Inductive result (A : Type) : Type :=
| Ok (v : A)
| Err (e : error).

Arguments Ok {A} v.
Arguments Err {A} e.

Definition bind {A B : Type} (r : result A) (k : A -> result B) : result B :=
  match r with
  | Ok v => k v
  | Err e => Err e
  end.

Notation "x <- r ;; k" := (bind r (fun x => k))
  (at level 61, r at next level, right associativity).

Fixpoint mapM {A B : Type} (f : A -> result B) (l : list A)
    : result (list B) :=
  match l with
  | [] => Ok []
  | x :: rest => v <- f x ;; vs <- mapM f rest ;; Ok (v :: vs)
  end.

(** ** Lists updated in place *)

Fixpoint set_nth {A : Type} (i : nat) (v : A) (l : list A) : list A :=
  match l, i with
  | [], _ => []
  | _ :: rest, O => v :: rest
  | h :: rest, S k => h :: set_nth k v rest
  end.

(** [x[i], x[j] = x[j], x[i]]: both right-hand sides are read first, then
    [x[i]] and [x[j]] are written in that order. *)
Definition swap (i j : nat) (x : list nat) : list nat :=
  let xj := nth j x O in
  let xi := nth i x O in
  set_nth j xi (set_nth i xj x).

(** [n] successive draws from a generator, threading its state. *)
Fixpoint draws {S A : Type} (next : S -> A * S) (n : nat) (s : S)
    : list A * S :=
  match n with
  | O => ([], s)
  | S k =>
      let (v, s1) := next s in
      let (vs, s2) := draws next k s1 in
      (v :: vs, s2)
  end.

(** ** Random sources *)

(** NumPy's global [RandomState].  The generator itself (a Mersenne
    Twister) is not code of the notebooks; it is taken through its
    interface.  [rs_interval m] is the bounded draw [random_interval(m)],
    which returns an integer between 0 and [m] inclusive. *)
Record RandomState : Type := {
  rs_state : Type;
  rs_seed : Z -> rs_state;
  rs_random_sample : rs_state -> R * rs_state;
  rs_standard_normal : rs_state -> R * rs_state;
  rs_interval : nat -> rs_state -> nat * rs_state;
  rs_interval_le : forall m s, (fst (rs_interval m s) <= m)%nat
}.

(** torch's default generator, used by [randperm]. *)
Record TorchGenerator : Type := {
  tg_state : Type;
  tg_manual_seed : Z -> tg_state;
  tg_random : tg_state -> nat * tg_state
}.

(** A small linear congruential generator, to run the definitions on. *)
Definition lcg_next (s : Z) : Z := ((1103515245 * s + 12345) mod 2147483648)%Z.

Definition lcg_interval (m : nat) (s : Z) : nat * Z :=
  let s' := lcg_next s in
  (Z.to_nat (s' mod (Z.of_nat m + 1)), s').

Lemma lcg_interval_le m s : (fst (lcg_interval m s) <= m)%nat.
Proof.
  unfold lcg_interval. cbn [fst].
  pose proof (Z.mod_pos_bound (lcg_next s) (Z.of_nat m + 1)).
  lia.
Qed.

Definition lcg_random_state : RandomState := {|
  rs_state := Z;
  rs_seed := fun seed => seed;
  rs_random_sample := fun s =>
    let s' := lcg_next s in (IZR (s' mod 1000) / 1000, s');
  rs_standard_normal := fun s =>
    let s' := lcg_next s in (IZR (s' mod 2001 - 1000) / 500, s');
  rs_interval := lcg_interval;
  rs_interval_le := lcg_interval_le
|}.

Definition lcg_torch_generator : TorchGenerator := {|
  tg_state := Z;
  tg_manual_seed := fun seed => seed;
  tg_random := fun s =>
    let s' := lcg_next s in (Z.to_nat ((s' / 65536) mod 1024), s')
|}.

(** ** Notebook 1: data generation and gradient descent with NumPy *)

Module NumPyGD.

Section DataGeneration.

Variable G : RandomState.

(** [np.random.rand(n, 1)] and [np.random.randn(n, 1)]. *)
Definition rand (n : nat) (s : rs_state G) : ndarray * rs_state G :=
  draws (rs_random_sample G) n s.

Definition randn (n : nat) (s : rs_state G) : ndarray * rs_state G :=
  draws (rs_standard_normal G) n s.

(** [np.arange(n)]. *)
Definition arange (n : nat) : list nat := seq 0 n.

(** [np.random.shuffle(x)]:
    [for i in reversed(range(1, n)): j = random_interval(i); x[i], x[j] = x[j], x[i]].
    [shuffle_from i] runs the iterations [i, i-1, ..., 1]. *)
Fixpoint shuffle_from (i : nat) (x : list nat) (s : rs_state G)
    : list nat * rs_state G :=
  match i with
  | O => (x, s)
  | S i' =>
      let (j, s') := rs_interval G i s in
      shuffle_from i' (swap i j x) s'
  end.

Definition shuffle (x : list nat) (s : rs_state G) : list nat * rs_state G :=
  shuffle_from (length x - 1) x s.

(** [x[idx]] with an integer index array: the rows of [x] at the positions
    in [idx]; a position outside [x] raises IndexError. *)
Definition take (x : ndarray) (idx : list nat) : result ndarray :=
  mapM (fun i => match nth_error x i with
                 | Some v => Ok v
                 | None => Err IndexError
                 end) idx.

Record dataset : Type := {
  x : ndarray;
  y : ndarray;
  train_idx : list nat;
  val_idx : list nat;
  x_train : ndarray;
  y_train : ndarray;
  x_val : ndarray;
  y_val : ndarray
}.

(** The data generation cell.  The notebook's constants are parameters
    here: the seed (None when the line [np.random.seed(42)] is commented
    out), the number of points, the line [y = true_intercept + true_slope
    * x], the noise scale and the number [n_train] of training points.  The
    cell reads and writes NumPy's global random state: [s0] is its value
    before the cell runs, the second component of the result its value
    afterwards. *)
Definition generate (seed : option Z) (n : nat)
    (true_intercept true_slope noise_std : R) (n_train : nat)
    (s0 : rs_state G) : result dataset * rs_state G :=
  let s1 := match seed with Some k => rs_seed G k | None => s0 end in
  let (x, s2) := rand n s1 in
  let (noise, s3) := randn n s2 in
  let y := arr_add (bcast_add true_intercept (bcast_mul true_slope x))
                   (bcast_mul noise_std noise) in
  let idx := arange n in
  let (idx, s4) := shuffle idx s3 in
  let train_idx := firstn n_train idx in
  let val_idx := skipn n_train idx in
  (x_train <- take x train_idx ;;
   y_train <- take y train_idx ;;
   x_val <- take x val_idx ;;
   y_val <- take y val_idx ;;
   Ok {| x := x; y := y; train_idx := train_idx; val_idx := val_idx;
         x_train := x_train; y_train := y_train;
         x_val := x_val; y_val := y_val |},
   s4).

(** The cell as it stands in the notebook. *)
Definition data_generation_cell := generate (Some 42%Z) 100 1 2 0.1 80.

End DataGeneration.

Record params : Type := mkParams { a : R; b : R }.

(** Step 1: [yhat = a + b * x_train]. *)
Definition yhat (p : params) (x_train : ndarray) : ndarray :=
  bcast_add (a p) (bcast_mul (b p) x_train).

(** Step 2: [error = (y_train - yhat)], [loss = (error ** 2).mean()]. *)
Definition error (p : params) (x_train y_train : ndarray) : ndarray :=
  arr_sub y_train (yhat p x_train).

Definition loss (p : params) (x_train y_train : ndarray) : R :=
  mean (arr_sq (error p x_train y_train)).

(** Step 3: [a_grad = -2 * error.mean()],
    [b_grad = -2 * (x_train * error).mean()]. *)
Definition a_grad (p : params) (x_train y_train : ndarray) : R :=
  -2 * mean (error p x_train y_train).

Definition b_grad (p : params) (x_train y_train : ndarray) : R :=
  -2 * mean (arr_mul x_train (error p x_train y_train)).

(** Step 4: [a = a - lr * a_grad], [b = b - lr * b_grad]. *)
Definition step (lr : R) (x_train y_train : ndarray) (p : params) : params :=
  {| a := a p - lr * a_grad p x_train y_train;
     b := b p - lr * b_grad p x_train y_train |}.

(** [for epoch in range(n_epochs): ...] *)
Fixpoint train (n_epochs : nat) (lr : R) (x_train y_train : ndarray)
    (p : params) : params :=
  match n_epochs with
  | O => p
  | S k => train k lr x_train y_train (step lr x_train y_train p)
  end.

End NumPyGD.

(** ** Notebook 2: tensors and autograd *)

Module Autograd.

(** The two parameter tensors, created with [requires_grad=True]. *)
Inductive pname : Type := A | B.

(** The computation graph torch records while the loss is computed. *)
Inductive node : Type :=
| Param (p : pname)            (* a leaf that requires grad *)
| Data (v : ndarray)           (* a data tensor, no grad *)
| Add (l r : node)
| Sub (l r : node)
| Mul (l r : node)
| Pow (e : node) (k : nat)
| Mean (e : node).

(** Broadcasting of a one-element tensor against a column. *)
Definition bcast2 (f : R -> R -> R) (u v : ndarray) : ndarray :=
  match u, v with
  | [s], _ => map (fun t => f s t) v
  | _, [s] => map (fun t => f t s) u
  | _, _ => ewise2 f u v
  end.

(** The gradient of a broadcast operand is summed back to its size. *)
Definition sum_to_size (n : nat) (g : ndarray) : ndarray :=
  if (n =? 1)%nat then [arr_sum g] else g.

Section Graph.

Variables (a b : R).

(** Forward values. *)
Fixpoint value (e : node) : ndarray :=
  match e with
  | Param A => [a]
  | Param B => [b]
  | Data v => v
  | Add l r => bcast2 Rplus (value l) (value r)
  | Sub l r => bcast2 Rminus (value l) (value r)
  | Mul l r => bcast2 Rmult (value l) (value r)
  | Pow e k => map (fun t => t ^ k) (value e)
  | Mean e => [mean (value e)]
  end.

(** Reverse pass: [backprop e up] sends the gradient [up] of the output
    with respect to [e] down to the leaves and lists what reaches each
    parameter. *)
Fixpoint backprop (e : node) (up : ndarray) : list (pname * R) :=
  match e with
  | Param p => [(p, arr_sum up)]
  | Data _ => []
  | Add l r =>
      backprop l (sum_to_size (length (value l)) up)
      ++ backprop r (sum_to_size (length (value r)) up)
  | Sub l r =>
      backprop l (sum_to_size (length (value l)) up)
      ++ backprop r (sum_to_size (length (value r)) (map Ropp up))
  | Mul l r =>
      backprop l (sum_to_size (length (value l)) (bcast2 Rmult up (value r)))
      ++ backprop r (sum_to_size (length (value r))
                       (bcast2 Rmult up (value l)))
  | Pow e k =>
      backprop e (bcast2 Rmult up
                    (map (fun t => INR k * t ^ (k - 1)) (value e)))
  | Mean e =>
      backprop e (map (fun _ => hd 0 up / INR (length (value e))) (value e))
  end.

End Graph.

(** A parameter tensor: its value and its [.grad] attribute, [None] until
    a backward pass has reached it. *)
Record leaf : Type := mkLeaf { data : R; grad : option R }.

Record state : Type := mkState { a : leaf; b : leaf }.

(** Autograd accumulates: a gradient is added to the [.grad] in place. *)
Definition accumulate (t : leaf) (g : R) : leaf :=
  {| data := data t;
     grad := match grad t with
             | None => Some g
             | Some g0 => Some (g0 + g)
             end |}.

Definition accumulate_at (st : state) (c : pname * R) : state :=
  match fst c with
  | A => {| a := accumulate (a st) (snd c); b := b st |}
  | B => {| a := a st; b := accumulate (b st) (snd c) |}
  end.

(** [yhat = a + b * x_train_tensor], [error = y_train_tensor - yhat],
    [loss = (error ** 2).mean()]. *)
Definition yhat (x_train_tensor : ndarray) : node :=
  Add (Param A) (Mul (Param B) (Data x_train_tensor)).

Definition error (x_train_tensor y_train_tensor : ndarray) : node :=
  Sub (Data y_train_tensor) (yhat x_train_tensor).

Definition loss (x_train_tensor y_train_tensor : ndarray) : node :=
  Mean (Pow (error x_train_tensor y_train_tensor) 2).

(** [loss.backward()]: the reverse pass starts from gradient 1. *)
Definition backward (e : node) (st : state) : state :=
  fold_left accumulate_at
    (backprop (data (a st)) (data (b st)) e [1]) st.

(** [with torch.no_grad(): p -= lr * p.grad]; [lr * None] is a
    TypeError. *)
Definition update (lr : R) (t : leaf) : result leaf :=
  match grad t with
  | Some g => Ok {| data := data t - lr * g; grad := grad t |}
  | None => Err TypeError
  end.

(** [p.grad.zero_()]; [None] has no [zero_]. *)
Definition zero_ (t : leaf) : result leaf :=
  match grad t with
  | Some _ => Ok {| data := data t; grad := Some 0 |}
  | None => Err AttributeError
  end.

(** One iteration of the loop (third attempt): forward pass, backward
    pass, in-place update, gradients zeroed. *)
Definition step (lr : R) (x_train_tensor y_train_tensor : ndarray)
    (st : state) : result state :=
  let st1 := backward (loss x_train_tensor y_train_tensor) st in
  a1 <- update lr (a st1) ;;
  b1 <- update lr (b st1) ;;
  a2 <- zero_ a1 ;;
  b2 <- zero_ b1 ;;
  Ok {| a := a2; b := b2 |}.

Fixpoint train (n_epochs : nat) (lr : R)
    (x_train_tensor y_train_tensor : ndarray) (st : state) : result state :=
  match n_epochs with
  | O => Ok st
  | S k =>
      st' <- step lr x_train_tensor y_train_tensor st ;;
      train k lr x_train_tensor y_train_tensor st'
  end.

(** The [.grad] of a parameter is clear when it is still [None] (a fresh
    tensor) or has been zeroed. *)
Definition grad_clear (t : leaf) : Prop :=
  grad t = None \/ grad t = Some 0.

End Autograd.

(** ** Notebook 5: Dataset, DataLoader, random_split, evaluation *)

Module DataLoading.

Definition tensor := ndarray.

(** [t[index]] with an integer index: negative indices count from the end,
    anything outside [-len, len) raises IndexError. *)
Definition tensor_index (t : tensor) (index : Z) : result R :=
  let n := Z.of_nat (length t) in
  let i := if (index <? 0)%Z then (index + n)%Z else index in
  if ((0 <=? i) && (i <? n))%Z
  then match nth_error t (Z.to_nat i) with
       | Some v => Ok v
       | None => Err IndexError
       end
  else Err IndexError.

(** The three kinds of dataset the notebook uses: the [CustomDataset]
    class it defines, torch's [TensorDataset], and the [Subset] views that
    [random_split] returns. *)
Inductive dataset : Type :=
| Custom (x y : tensor)
| Tensors (x y : tensor)
| Subset (d : dataset) (indices : list nat).

(** [CustomDataset(x_tensor, y_tensor)]: [__init__] stores the tensors. *)
Definition CustomDataset (x_tensor y_tensor : tensor) : dataset :=
  Custom x_tensor y_tensor.

(** [TensorDataset(x, y)]: the constructor asserts that the tensors have
    the same first dimension. *)
Definition TensorDataset (x_tensor y_tensor : tensor) : result dataset :=
  if (length x_tensor =? length y_tensor)%nat
  then Ok (Tensors x_tensor y_tensor)
  else Err AssertionError.

(** [len(d)].  [CustomDataset.__len__] returns [len(self.x)];
    [TensorDataset] the first dimension of its first tensor; [Subset] the
    number of its indices. *)
Definition len (d : dataset) : nat :=
  match d with
  | Custom x _ => length x
  | Tensors x _ => length x
  | Subset _ indices => length indices
  end.

(** [d[index]].  [CustomDataset.__getitem__] returns
    [(self.x[index], self.y[index])]; [TensorDataset] the tuple of
    [tensor[index]] over its tensors; [Subset] the item of the underlying
    dataset at [indices[index]]. *)
Fixpoint getitem (d : dataset) (index : Z) : result (R * R) :=
  match d with
  | Custom x y =>
      xi <- tensor_index x index ;; yi <- tensor_index y index ;; Ok (xi, yi)
  | Tensors x y =>
      xi <- tensor_index x index ;; yi <- tensor_index y index ;; Ok (xi, yi)
  | Subset base indices =>
      let n := Z.of_nat (length indices) in
      let i := if (index <? 0)%Z then (index + n)%Z else index in
      if ((0 <=? i) && (i <? n))%Z
      then match nth_error indices (Z.to_nat i) with
           | Some k => getitem base (Z.of_nat k)
           | None => Err IndexError
           end
      else Err IndexError
  end.

(** Every position below [len d] can be fetched. *)
Fixpoint well_formed (d : dataset) : Prop :=
  match d with
  | Custom x y => length x = length y
  | Tensors x y => length x = length y
  | Subset base indices =>
      well_formed base /\ Forall (fun k => (k < len base)%nat) indices
  end.

Section Loading.

Variable G : TorchGenerator.

(** Modelled from the spec: torch's [randperm(n)], "a seeded permutation
    of [0, N)"; its code is not in the notebooks.  It is the in-place
    shuffle [for i in 0 .. n-2: z = random() % (n - i); swap r[i], r[z+i]]
    of [0, 1, ..., n-1]; [randperm_from i k] runs the [k] iterations that
    start at [i]. *)
Fixpoint randperm_from (i k : nat) (r : list nat) (s : tg_state G)
    : list nat * tg_state G :=
  match k with
  | O => (r, s)
  | S k' =>
      let (raw, s') := tg_random G s in
      let z := (raw mod (length r - i))%nat in
      randperm_from (S i) k' (swap i (z + i) r) s'
  end.

Definition randperm (n : nat) (s : tg_state G) : list nat * tg_state G :=
  randperm_from 0 (n - 1) (seq 0 n) s.

(** Modelled from the spec: torch's [random_split(dataset, lengths)], the
    Splitter's "pure random split using a seeded permutation of [0, N)";
    its code is not in the notebooks.  The lengths must add up to the size
    of the dataset; the subsets take consecutive slices of one random
    permutation of the positions. *)
Fixpoint slices (indices : list nat) (lengths : list nat)
    : list (list nat) :=
  match lengths with
  | [] => []
  | n :: rest => firstn n indices :: slices (skipn n indices) rest
  end.

Definition random_split (d : dataset) (lengths : list nat)
    (s : tg_state G) : result (list dataset) * tg_state G :=
  if (list_sum lengths =? len d)%nat
  then let (indices, s') := randperm (list_sum lengths) s in
       (Ok (map (Subset d) (slices indices lengths)), s')
  else (Err InvalidArgument, s).

(** Modelled from the spec: torch's [DataLoader], the Batcher; its code is
    not in the notebooks, which only construct loaders and iterate over
    them.  Construction fails when [batch_size <= 0]. *)
Record loader : Type := {
  dl_dataset : dataset;
  dl_batch_size : Z;
  dl_shuffle : bool
}.

Definition DataLoader (d : dataset) (batch_size : Z) (shuffle : bool)
    : result loader :=
  if (batch_size <=? 0)%Z
  then Err InvalidArgument
  else Ok {| dl_dataset := d; dl_batch_size := batch_size;
             dl_shuffle := shuffle |}.

(** The order in which one pass visits the positions of the dataset: a
    fresh random permutation when [shuffle] is set, the original order
    otherwise. *)
Definition sampler (shuffle : bool) (n : nat) (s : tg_state G)
    : list nat * tg_state G :=
  if shuffle then randperm n s else (seq 0 n, s).

(** Batches are cut from that order: positions are collected until
    [batch_size] of them are there; what remains at the end makes a last,
    shorter batch. *)
Fixpoint batch_loop (batch_size : Z) (order : list nat) (batch : list nat)
    : list (list nat) :=
  match order with
  | [] => if (0 <? length batch)%nat then [batch] else []
  | idx :: rest =>
      let batch' := batch ++ [idx] in
      if (Z.of_nat (length batch') =? batch_size)%Z
      then batch' :: batch_loop batch_size rest []
      else batch_loop batch_size rest batch'
  end.

Definition batch_sampler (ld : loader) (s : tg_state G)
    : list (list nat) * tg_state G :=
  let (order, s') := sampler (dl_shuffle ld) (len (dl_dataset ld)) s in
  (batch_loop (dl_batch_size ld) order [], s').

(** A batch of positions is fetched item by item and collated into a
    pair [(x_batch, y_batch)] of columns. *)
Definition fetch (d : dataset) (batch : list nat)
    : result (tensor * tensor) :=
  items <- mapM (fun k => getitem d (Z.of_nat k)) batch ;;
  Ok (map fst items, map snd items).

(** The batches of one pass over the loader ([for x_batch, y_batch in
    loader]). *)
Definition batches (ld : loader) (s : tg_state G)
    : result (list (tensor * tensor)) * tg_state G :=
  let (bs, s') := batch_sampler ld s in
  (mapM (fetch (dl_dataset ld)) bs, s').

(** The Batcher over an index list, [iterate(dataset, indices, batch_size,
    shuffle, seed)]: a loader over the subset [indices] of the dataset;
    each batch is given by the indices of its samples in the dataset. *)
Definition iterate (d : dataset) (indices : list nat) (batch_size : Z)
    (shuffle : bool) (s : tg_state G)
    : result (list (list nat)) * tg_state G :=
  match DataLoader (Subset d indices) batch_size shuffle with
  | Err e => (Err e, s)
  | Ok ld =>
      let (bs, s') := batch_sampler ld s in
      (Ok (map (map (fun k => nth k indices O)) bs), s')
  end.

End Loading.

(** [model = nn.Sequential(nn.Linear(1, 1))]: one weight, one bias, and the
    train / eval mode flag. *)
Record model : Type := mkModel { weight : R; bias : R; training : bool }.

(** [model(x)]. *)
Definition forward (m : model) (x : tensor) : tensor :=
  map (fun t => t * weight m + bias m) x.

(** [loss_fn = nn.MSELoss(reduction='mean')]. *)
Definition loss_fn (input target : tensor) : R :=
  mean (arr_sq (arr_sub input target)).

(** [model.train()], [model.eval()]. *)
Definition set_train (m : model) : model :=
  {| weight := weight m; bias := bias m; training := true |}.
Definition set_eval (m : model) : model :=
  {| weight := weight m; bias := bias m; training := false |}.

(** Modelled from the spec: the function [train_step] built by
    [make_train_step(model, loss_fn, optimizer)], imported from
    [train_step.py], which is not among the sources.  One step of
    EpochTrain: predictions, error, loss, the two gradients
    [grad_a = -2 * mean(error)] and [grad_b = -2 * mean(x * error)], the
    update of both parameters by [learning_rate], and the loss
    returned. *)
Definition train_step (lr : R) (m : model) (x y : tensor) : model * R :=
  let m := set_train m in
  let yhat := forward m x in
  let error := arr_sub y yhat in
  let loss := mean (arr_sq error) in
  let grad_a := -2 * mean error in
  let grad_b := -2 * mean (arr_mul x error) in
  ({| weight := weight m - lr * grad_b;
      bias := bias m - lr * grad_a;
      training := training m |}, loss).

(** The state of the training cell: the model, the two loss histories,
    and [updates], which counts the parameter updates performed (it is
    instrumentation: the notebook keeps no such counter). *)
Record run : Type := mkRun {
  mdl : model;
  losses : list R;
  val_losses : list R;
  updates : nat
}.

(** Body of [for x_batch, y_batch in train_loader]:
    [loss = train_step(x_batch, y_batch); losses.append(loss)]. *)
Definition train_batch (lr : R) (st : run) (batch : tensor * tensor) : run :=
  let (m', loss) := train_step lr (mdl st) (fst batch) (snd batch) in
  {| mdl := m'; losses := losses st ++ [loss];
     val_losses := val_losses st; updates := S (updates st) |}.

(** Body of [for x_val, y_val in val_loader] under [torch.no_grad()]:
    [model.eval(); yhat = model(x_val); val_loss = loss_fn(y_val, yhat);
    val_losses.append(val_loss.item())]. *)
Definition validate_batch (st : run) (batch : tensor * tensor) : run :=
  let m := set_eval (mdl st) in
  let yhat := forward m (fst batch) in
  let val_loss := loss_fn (snd batch) yhat in
  {| mdl := m; losses := losses st;
     val_losses := val_losses st ++ [val_loss]; updates := updates st |}.

Section Training.

Variable G : TorchGenerator.

(** One pass over the training loader. *)
Definition epoch_train (lr : R) (train_loader : loader)
    (st : run) (s : tg_state G) : result run * tg_state G :=
  let (r, s') := batches G train_loader s in
  (bs <- r ;; Ok (fold_left (train_batch lr) bs st), s').

(** One pass over the validation loader. *)
Definition epoch_validate (val_loader : loader)
    (st : run) (s : tg_state G) : result run * tg_state G :=
  let (r, s') := batches G val_loader s in
  (bs <- r ;; Ok (fold_left validate_batch bs st), s').

(** The first training cell, [for epoch in range(n_epochs): for x_batch,
    y_batch in train_loader: ...], without validation. *)
Fixpoint train_loop (n_epochs : nat) (lr : R) (train_loader : loader)
    (st : run) (s : tg_state G) : result run * tg_state G :=
  match n_epochs with
  | O => (Ok st, s)
  | S k =>
      match epoch_train lr train_loader st s with
      | (Err e, s1) => (Err e, s1)
      | (Ok st1, s1) => train_loop k lr train_loader st1 s1
      end
  end.

(** The cell that builds the loader followed by the training cell, for a
    batch size and shuffle flag of the caller's choice (16 and True in the
    notebook). *)
Definition train_cells (n_epochs : nat) (lr : R) (train_data : dataset)
    (batch_size : Z) (shuffle : bool) (st : run) (s : tg_state G)
    : result run * tg_state G :=
  match DataLoader train_data batch_size shuffle with
  | Err e => (Err e, s)
  | Ok train_loader => train_loop n_epochs lr train_loader st s
  end.

(** The last training cell, [for epoch in range(n_epochs)]: a training
    pass, then a validation pass. *)
Fixpoint fit (n_epochs : nat) (lr : R) (train_loader val_loader : loader)
    (st : run) (s : tg_state G) : result run * tg_state G :=
  match n_epochs with
  | O => (Ok st, s)
  | S k =>
      match epoch_train lr train_loader st s with
      | (Err e, s1) => (Err e, s1)
      | (Ok st1, s1) =>
          match epoch_validate val_loader st1 s1 with
          | (Err e, s2) => (Err e, s2)
          | (Ok st2, s2) => fit k lr train_loader val_loader st2 s2
          end
      end
  end.

End Training.

End DataLoading.

(** ** Specification predicates *)

(** [train] and [val] split the indices [0, ..., n-1]: together they have
    [n] elements, they share none, every index below [n] occurs exactly
    once in the two lists taken together, and nothing else occurs. *)
Definition splits (n : nat) (train val : list nat) : Prop :=
  (length train + length val = n)%nat
  /\ (forall i, In i train -> ~ In i val)
  /\ (forall i, (i < n)%nat -> count_occ Nat.eq_dec (train ++ val) i = 1%nat)
  /\ (forall i, In i (train ++ val) -> (i < n)%nat).

(** ** Notebook 2: the first attempt at the update *)

Module FirstAttempt.

(** In the first attempt the loop rebinds the names: [a = a - lr * a.grad]
    makes [a] the result of a subtraction, a tensor with a history and no
    longer one of the two leaves.  A variable is the graph node that
    computes it; the leaves themselves, with their [.grad], stay as they
    were created. *)
Record vars : Type := mkVars {
  leaves : Autograd.state;
  a : Autograd.node;
  b : Autograd.node
}.


(** [t.grad]: the accumulated gradient of a leaf; [None] for any tensor
    that is not a leaf. *)
Definition grad_of (st : Autograd.state) (t : Autograd.node) : option R :=
  match t with
  | Autograd.Param Autograd.A => Autograd.grad (Autograd.a st)
  | Autograd.Param Autograd.B => Autograd.grad (Autograd.b st)
  | _ => None
  end.

(** [yhat = a + b * x_train_tensor], [error = y_train_tensor - yhat],
    [loss = (error ** 2).mean()], over whatever [a] and [b] are bound
    to. *)
Definition loss (v : vars) (x_train_tensor y_train_tensor : ndarray)
    : Autograd.node :=
  Autograd.Mean
    (Autograd.Pow
       (Autograd.Sub (Autograd.Data y_train_tensor)
          (Autograd.Add (a v)
             (Autograd.Mul (b v) (Autograd.Data x_train_tensor)))) 2).

(** [t = t - lr * t.grad]: [lr * None] is a TypeError; otherwise the name
    is rebound to the difference. *)
Definition reassign (lr : R) (st : Autograd.state) (t : Autograd.node)
    : result Autograd.node :=
  match grad_of st t with
  | Some g => Ok (Autograd.Sub t (Autograd.Data [lr * g]))
  | None => Err TypeError
  end.

(** One iteration: forward pass, [loss.backward()], then the two
    reassignments. *)
Definition step (lr : R) (x_train_tensor y_train_tensor : ndarray)
    (v : vars) : result vars :=
  let st := Autograd.backward (loss v x_train_tensor y_train_tensor)
              (leaves v) in
  a1 <- reassign lr st (a v) ;;
  b1 <- reassign lr st (b v) ;;
  Ok {| leaves := st; a := a1; b := b1 |}.

Fixpoint train (n_epochs : nat) (lr : R)
    (x_train_tensor y_train_tensor : ndarray) (v : vars) : result vars :=
  match n_epochs with
  | O => Ok v
  | S k =>
      v' <- step lr x_train_tensor y_train_tensor v ;;
      train k lr x_train_tensor y_train_tensor v'
  end.


End FirstAttempt.

(** ** Notebook 1 in floating point *)

(** The iteration of the NumPy loop on float64 arrays, operation by
    operation in IEEE binary64 (round to nearest even), which is what
    elementwise NumPy arithmetic on float64 is. *)
Module Float64GD.

Definition array := list float.

(** [v.sum()], the entries added from left to right.  NumPy chooses the
    order of the additions itself (pairwise in blocks on long arrays); the
    definition is meant for batches of one or two samples, where there is
    only one order. *)
Definition sum (v : array) : float := fold_left PrimFloat.add v 0%float.

(** [v.mean()]: the sum divided by the number of entries. *)
Definition mean (v : array) : float :=
  (sum v / of_uint63 (Uint63.of_Z (Z.of_nat (length v))))%float.

Record params : Type := mkParams { a : float; b : float }.

(** [yhat = a + b * x_train]. *)
Definition yhat (p : params) (x_train : array) : array :=
  map (fun t => (a p + b p * t)%float) x_train.

(** [error = (y_train - yhat)]. *)
Definition error (p : params) (x_train y_train : array) : array :=
  map (fun s => (fst s - snd s)%float) (combine y_train (yhat p x_train)).

(** [loss = (error ** 2).mean()]; NumPy squares by multiplying. *)
Definition loss (p : params) (x_train y_train : array) : float :=
  mean (map (fun e => (e * e)%float) (error p x_train y_train)).

(** [a_grad = -2 * error.mean()],
    [b_grad = -2 * (x_train * error).mean()]. *)
Definition a_grad (p : params) (x_train y_train : array) : float :=
  (-2 * mean (error p x_train y_train))%float.

Definition b_grad (p : params) (x_train y_train : array) : float :=
  (-2 * mean (map (fun s => (fst s * snd s)%float)
                (combine x_train (error p x_train y_train))))%float.

(** [a = a - lr * a_grad], [b = b - lr * b_grad]. *)
Definition step (lr : float) (x_train y_train : array) (p : params)
    : params :=
  {| a := (a p - lr * a_grad p x_train y_train)%float;
     b := (b p - lr * b_grad p x_train y_train)%float |}.

(** [for epoch in range(n_epochs): ...] *)
Fixpoint train (n_epochs : nat) (lr : float) (x_train y_train : array)
    (p : params) : params :=
  match n_epochs with
  | O => p
  | S k => train k lr x_train y_train (step lr x_train y_train p)
  end.

(** [lr = 1e-1]: the Python float nearest to one tenth. *)
Definition lr : float := 0x1.999999999999ap-4%float.

End Float64GD.

(** The real number a finite float stands for: sign, integer mantissa
    and binary exponent. *)
Definition SF2R (f : spec_float) : R :=
  match f with
  | S754_finite s m e => (if s then -1 else 1) * IZR (Z.pos m) * powerRZ 2 e
  | _ => 0
  end.

Definition to_R (f : float) : R := SF2R (Prim2SF f).

(** The finite values of IEEE binary32, the numbers a [torch.float]
    tensor can hold: an integer of fewer than 24 bits times a power of two
    between [2 ^ -149] and [2 ^ 104]. *)
Definition binary32 (r : R) : Prop :=
  exists m e : Z,
    (Z.abs m < 2 ^ 24)%Z /\ (-149 <= e <= 104)%Z /\ r = IZR m * powerRZ 2 e.

(** ** Further predicates *)

(** Every feature lies in [0, 1], as the draws of [np.random.rand] do. *)
Definition unit_features (x : ndarray) : Prop :=
  Forall (fun t => 0 <= t <= 1) x.

(** [p] minimises the batch loss over all parameter pairs. *)
Definition minimises_loss (p : NumPyGD.params) (x_train y_train : ndarray)
    : Prop :=
  forall q, NumPyGD.loss p x_train y_train <= NumPyGD.loss q x_train y_train.

(** The sample a well-formed dataset holds at position [k]. *)
Fixpoint item_at (d : DataLoading.dataset) (k : nat) : R * R :=
  match d with
  | DataLoading.Custom x y => (nth k x 0, nth k y 0)
  | DataLoading.Tensors x y => (nth k x 0, nth k y 0)
  | DataLoading.Subset base indices => item_at base (nth k indices O)
  end.

(** The batch of the samples at a list of positions, features and labels
    collated into two columns. *)
Definition batch_at (d : DataLoading.dataset) (batch : list nat)
    : DataLoading.tensor * DataLoading.tensor :=
  (map (fun k => fst (item_at d k)) batch,
   map (fun k => snd (item_at d k)) batch).

(** All the samples of a dataset, in order. *)
Definition items (d : DataLoading.dataset) : list (R * R) :=
  map (item_at d) (seq 0 (DataLoading.len d)).

(** The samples a pass delivered, batch after batch. *)
Definition delivered (bs : list (DataLoading.tensor * DataLoading.tensor))
    : list (R * R) :=
  concat (map (fun batch => combine (fst batch) (snd batch)) bs).

(** Two states of the training cell that training cannot tell apart: the
    same weight and bias, the same training losses and update count. *)
Definition same_training (st1 st2 : DataLoading.run) : Prop :=
  DataLoading.weight (DataLoading.mdl st1)
    = DataLoading.weight (DataLoading.mdl st2)
  /\ DataLoading.bias (DataLoading.mdl st1)
     = DataLoading.bias (DataLoading.mdl st2)
  /\ DataLoading.losses st1 = DataLoading.losses st2
  /\ DataLoading.updates st1 = DataLoading.updates st2.

(** The number of batches one pass cuts from [n] samples. *)
Definition batch_count (n : nat) (batch_size : Z) : nat :=
  Z.to_nat ((Z.of_nat n + batch_size - 1) / batch_size).

(** The batch loss as the specification writes it, the mean over the
    samples [(x_i, y_i)] of the batch of [(y_i - a - b * x_i) ^ 2]; the
    gradients of the loop are compared with the derivatives of this
    function, not with the loop's own [loss]. *)
Definition mse (a b : R) (x y : ndarray) : R :=
  sum_over (fun s => (snd s - a - b * fst s) ^ 2) (combine x y)
  / INR (length x).

(** The parameters of the model as the pair [(a, b)] of the NumPy loop:
    the bias is the intercept [a], the weight the slope [b]. *)
Definition params_of (m : DataLoading.model) : NumPyGD.params :=
  NumPyGD.mkParams (DataLoading.bias m) (DataLoading.weight m).

(** Gradient descent over a sequence of batches, one update per batch,
    each from the parameters the update before it left: the parameters
    after the last update, and the loss of every batch at the parameters it
    met. *)
Fixpoint descent (lr : R) (bs : list (ndarray * ndarray))
    (p : NumPyGD.params) : NumPyGD.params * list R :=
  match bs with
  | [] => (p, [])
  | batch :: rest =>
      let (p', ls) :=
        descent lr rest (NumPyGD.step lr (fst batch) (snd batch) p) in
      (p', NumPyGD.loss p (fst batch) (snd batch) :: ls)
  end.

(** * Properties *)

(** ** Sums over a batch *)

Section BatchSums.

Variable A : Type.

Lemma sum_over_cons (f : A -> R) x l :
  sum_over f (x :: l) = f x + sum_over f l.
Proof. reflexivity. Qed.

Lemma sum_over_scal c (f : A -> R) l :
  sum_over (fun x => c * f x) l = c * sum_over f l.
Proof.
  induction l as [|x l IH]; unfold sum_over in *; simpl.
  - ring.
  - rewrite IH. ring.
Qed.

Lemma sum_over_ext (f g : A -> R) l :
  (forall x, f x = g x) -> sum_over f l = sum_over g l.
Proof.
  intros E. unfold sum_over. f_equal. apply map_ext. exact E.
Qed.

(** A finite sum of differentiable functions is differentiable, term by
    term. *)
Lemma sum_over_derivable (F dF : R -> A -> R) (t : R) (l : list A) :
  (forall x, derivable_pt_lim (fun s => F s x) t (dF t x)) ->
  derivable_pt_lim (fun s => sum_over (F s) l) t (sum_over (dF t) l).
Proof.
  intros H. induction l as [|x l IH].
  - apply (derivable_pt_lim_ext (fct_cte 0)); [reflexivity|].
    apply derivable_pt_lim_const.
  - apply (derivable_pt_lim_ext
             ((fun s => F s x) + (fun s => sum_over (F s) l))%F).
    + intros z. reflexivity.
    + rewrite sum_over_cons. apply derivable_pt_lim_plus; [apply H | exact IH].
Qed.

End BatchSums.

(** One squared residual [(c - k * t) ^ 2], as a function of [t]. *)
Lemma residual_sq_derivable (c k t : R) :
  derivable_pt_lim (fun s => (c - k * s) ^ 2) t (-2 * (k * (c - k * t))).
Proof.
  apply (derivable_pt_lim_ext
           (fct_cte (c ^ 2) + mult_real_fct (- (2 * c * k)) id
            + mult_real_fct (k ^ 2) Rsqr)%F).
  - intros z. unfold plus_fct, fct_cte, mult_real_fct, id, Rsqr. ring.
  - replace (-2 * (k * (c - k * t)))
      with (0 + - (2 * c * k) * 1 + k ^ 2 * (2 * t)) by ring.
    repeat apply derivable_pt_lim_plus.
    + apply derivable_pt_lim_const.
    + apply derivable_pt_lim_scal, derivable_pt_lim_id.
    + apply derivable_pt_lim_scal, derivable_pt_lim_Rsqr.
Qed.

(** The arrays of the loop body, read sample by sample: a sample is the
    pair [(y, x)] of a label and its feature. *)
Section Samplewise.

Import NumPyGD.

Lemma error_samplewise p x_train y_train :
  error p x_train y_train
  = map (fun s => fst s - (a p + b p * snd s)) (combine y_train x_train).
Proof.
  unfold error, arr_sub, ewise2, yhat, bcast_add, bcast_mul.
  rewrite map_map.
  revert y_train. induction x_train as [|x xs IH]; intros [|y ys]; simpl;
    try reflexivity.
  f_equal. apply IH.
Qed.

Lemma length_samples (x_train y_train : ndarray) :
  length x_train = length y_train ->
  length (combine y_train x_train) = length x_train.
Proof. intros E. rewrite length_combine. lia. Qed.

Lemma length_error p x_train y_train :
  length x_train = length y_train ->
  length (error p x_train y_train) = length x_train.
Proof.
  intros E. rewrite error_samplewise, length_map. now apply length_samples.
Qed.

Lemma loss_samplewise p x_train y_train :
  loss p x_train y_train
  = sum_over (fun s => (fst s - (a p + b p * snd s)) ^ 2)
      (combine y_train x_train)
    / INR (length (combine y_train x_train)).
Proof.
  unfold loss, mean, arr_sq. rewrite error_samplewise.
  rewrite !length_map, map_map. reflexivity.
Qed.

Lemma a_grad_samplewise p x_train y_train :
  a_grad p x_train y_train
  = sum_over (fun s => -2 * (1 * (fst s - b p * snd s - 1 * a p)))
      (combine y_train x_train)
    / INR (length (combine y_train x_train)).
Proof.
  unfold a_grad, mean. rewrite error_samplewise, length_map.
  unfold Rdiv. rewrite <- Rmult_assoc. f_equal.
  fold (sum_over (fun s => fst s - (a p + b p * snd s))
          (combine y_train x_train)).
  rewrite <- sum_over_scal. apply sum_over_ext. intros s. ring.
Qed.

Lemma arr_mul_samplewise (g : R * R -> R) (x_train y_train : ndarray) :
  length x_train = length y_train ->
  arr_mul x_train (map g (combine y_train x_train))
  = map (fun s => snd s * g s) (combine y_train x_train).
Proof.
  unfold arr_mul, ewise2.
  revert y_train. induction x_train as [|x xs IH]; intros [|y ys] E;
    simpl in *; try reflexivity; try discriminate.
  f_equal. apply IH. lia.
Qed.

Lemma b_grad_samplewise p x_train y_train :
  length x_train = length y_train ->
  b_grad p x_train y_train
  = sum_over (fun s => -2 * (snd s * (fst s - a p - snd s * b p)))
      (combine y_train x_train)
    / INR (length (combine y_train x_train)).
Proof.
  intros E. unfold b_grad, mean.
  rewrite error_samplewise, arr_mul_samplewise by exact E.
  rewrite length_map.
  unfold Rdiv. rewrite <- Rmult_assoc. f_equal.
  fold (sum_over (fun s => snd s * (fst s - (a p + b p * snd s)))
          (combine y_train x_train)).
  rewrite <- sum_over_scal. apply sum_over_ext. intros s. ring.
Qed.

End Samplewise.

(** The gradients of the loop are the partial derivatives of the loop's
    own loss. *)
Lemma loss_partial_derivatives
    (x_train y_train : ndarray) (a0 b0 : R) :
  length x_train = length y_train ->
  (0 < length x_train)%nat ->
  derivable_pt_lim
    (fun a' => NumPyGD.loss (NumPyGD.mkParams a' b0) x_train y_train) a0
    (NumPyGD.a_grad (NumPyGD.mkParams a0 b0) x_train y_train)
  /\
  derivable_pt_lim
    (fun b' => NumPyGD.loss (NumPyGD.mkParams a0 b') x_train y_train) b0
    (NumPyGD.b_grad (NumPyGD.mkParams a0 b0) x_train y_train).
Proof.
  intros E _. split.
  - rewrite a_grad_samplewise. cbn [NumPyGD.a NumPyGD.b].
    apply (derivable_pt_lim_ext
             (fun a' => sum_over (fun s => (fst s - b0 * snd s - 1 * a') ^ 2)
                          (combine y_train x_train)
                        / INR (length (combine y_train x_train)))).
    + intros z. rewrite loss_samplewise. cbn [NumPyGD.a NumPyGD.b].
      f_equal. apply sum_over_ext. intros s. ring.
    + apply derivable_pt_lim_div_scal.
      apply (sum_over_derivable _
               (fun a' s => (fst s - b0 * snd s - 1 * a') ^ 2)
               (fun a' s => -2 * (1 * (fst s - b0 * snd s - 1 * a')))).
      intros s. apply residual_sq_derivable.
  - rewrite b_grad_samplewise by exact E. cbn [NumPyGD.a NumPyGD.b].
    apply (derivable_pt_lim_ext
             (fun b' => sum_over (fun s => (fst s - a0 - snd s * b') ^ 2)
                          (combine y_train x_train)
                        / INR (length (combine y_train x_train)))).
    + intros z. rewrite loss_samplewise. cbn [NumPyGD.a NumPyGD.b].
      f_equal. apply sum_over_ext. intros s. ring.
    + apply derivable_pt_lim_div_scal.
      apply (sum_over_derivable _
               (fun b' s => (fst s - a0 - snd s * b') ^ 2)
               (fun b' s => -2 * (snd s * (fst s - a0 - snd s * b')))).
      intros s. apply residual_sq_derivable.
Qed.

Lemma sum_over_map {T U : Type} (f : U -> R) (g : T -> U) l :
  sum_over f (map g l) = sum_over (fun t => f (g t)) l.
Proof. unfold sum_over. now rewrite map_map. Qed.

Lemma combine_swap {T U : Type} (u : list T) (v : list U) :
  combine v u = map (fun s => (snd s, fst s)) (combine u v).
Proof.
  revert v. induction u as [|t u IH]; intros [|z v]; simpl;
    try reflexivity.
  now rewrite IH.
Qed.

(** The loss the loop computes is the mean squared error of the
    specification. *)
Lemma loss_is_mse (x_train y_train : ndarray) (a0 b0 : R) :
  length x_train = length y_train ->
  NumPyGD.loss (NumPyGD.mkParams a0 b0) x_train y_train
  = mse a0 b0 x_train y_train.
Proof.
  intros E. rewrite loss_samplewise. unfold mse.
  cbn [NumPyGD.a NumPyGD.b].
  rewrite length_combine, <- E, Nat.min_id.
  rewrite (combine_swap x_train y_train), sum_over_map.
  f_equal. apply sum_over_ext. intros s. cbn [fst snd]. ring.
Qed.

(** C1.  For every batch [(x_train, y_train)] of equally many features and
    labels (at least one) and every parameter pair [(a, b)], the loss the
    loop computes is the mean squared error [mean((y - a - b * x) ^ 2)] of
    the batch, and the gradients of the loop,
    [a_grad = -2 * error.mean()] and
    [b_grad = -2 * (x_train * error).mean()], are the partial derivatives
    of that mean squared error with respect to [a] and to [b]. *)
Theorem analytic_gradients_are_partial_derivatives
    (x_train y_train : ndarray) (a0 b0 : R) :
  length x_train = length y_train ->
  (0 < length x_train)%nat ->
  NumPyGD.loss (NumPyGD.mkParams a0 b0) x_train y_train
    = mse a0 b0 x_train y_train
  /\
  derivable_pt_lim (fun a' => mse a' b0 x_train y_train) a0
    (NumPyGD.a_grad (NumPyGD.mkParams a0 b0) x_train y_train)
  /\
  derivable_pt_lim (fun b' => mse a0 b' x_train y_train) b0
    (NumPyGD.b_grad (NumPyGD.mkParams a0 b0) x_train y_train).
Proof.
  intros E N.
  destruct (loss_partial_derivatives x_train y_train a0 b0 E N) as [Da Db].
  split; [now apply loss_is_mse|]. split.
  - apply (derivable_pt_lim_ext
             (fun a' => NumPyGD.loss (NumPyGD.mkParams a' b0)
                          x_train y_train)); [|exact Da].
    intros z. now apply loss_is_mse.
  - apply (derivable_pt_lim_ext
             (fun b' => NumPyGD.loss (NumPyGD.mkParams a0 b')
                          x_train y_train)); [|exact Db].
    intros z. now apply loss_is_mse.
Qed.

Lemma analytic_gradients_witness :
  NumPyGD.loss (NumPyGD.mkParams 0 0) [1; 2] [3; 5] = mse 0 0 [1; 2] [3; 5]
  /\
  derivable_pt_lim (fun a' => mse a' 0 [1; 2] [3; 5]) 0
    (NumPyGD.a_grad (NumPyGD.mkParams 0 0) [1; 2] [3; 5])
  /\
  derivable_pt_lim (fun b' => mse 0 b' [1; 2] [3; 5]) 0
    (NumPyGD.b_grad (NumPyGD.mkParams 0 0) [1; 2] [3; 5]).
Proof.
  apply (analytic_gradients_are_partial_derivatives [1; 2] [3; 5] 0 0).
  - reflexivity.
  - simpl. lia.
Defined.

(** On the batch [x = [1; 2]], [y = [3; 5]] at [a = b = 0]: the mean
    squared error is 17 and the two gradients are -8 and -13. *)
Example mse_example : mse 0 0 [1; 2] [3; 5] = 17.
Proof. unfold mse, sum_over. simpl. lra. Qed.

Example gradients_example :
  NumPyGD.a_grad (NumPyGD.mkParams 0 0) [1; 2] [3; 5] = -8
  /\ NumPyGD.b_grad (NumPyGD.mkParams 0 0) [1; 2] [3; 5] = -13.
Proof.
  unfold NumPyGD.a_grad, NumPyGD.b_grad, NumPyGD.error, NumPyGD.yhat,
    mean, arr_mul, arr_sub, ewise2, bcast_add, bcast_mul.
  simpl. split; lra.
Qed.

(** ** Autograd computes the same gradients *)

Section AutogradGradients.

Import Autograd.

Lemma bcast2_same_length f (u v : ndarray) :
  length u = length v -> bcast2 f u v = ewise2 f u v.
Proof.
  intros E. unfold bcast2, ewise2.
  destruct u as [|s [|s' u]], v as [|t [|t' v]]; simpl in *;
    try reflexivity; discriminate.
Qed.

Lemma arr_sum_sum_to_size n g : arr_sum (sum_to_size n g) = arr_sum g.
Proof.
  unfold sum_to_size. destruct (n =? 1)%nat; [simpl; ring | reflexivity].
Qed.

Lemma length_sum_to_size n g :
  length g = n -> length (sum_to_size n g) = n.
Proof.
  intros L. unfold sum_to_size.
  destruct (Nat.eqb_spec n 1) as [E|E]; [now subst | exact L].
Qed.

Lemma length_ewise2 f (u v : ndarray) :
  length u = length v -> length (ewise2 f u v) = length u.
Proof.
  intros E. unfold ewise2. rewrite length_map, length_combine. lia.
Qed.

(** Values of the graph nodes are the arrays of the NumPy loop. *)
Lemma value_yhat a0 b0 x_t :
  value a0 b0 (yhat x_t) = NumPyGD.yhat (NumPyGD.mkParams a0 b0) x_t.
Proof. reflexivity. Qed.

Lemma length_yhat p (x_t : ndarray) : length (NumPyGD.yhat p x_t) = length x_t.
Proof.
  unfold NumPyGD.yhat, bcast_add, bcast_mul. now rewrite !length_map.
Qed.

Lemma value_error a0 b0 x_t y_t :
  length x_t = length y_t ->
  value a0 b0 (error x_t y_t)
  = NumPyGD.error (NumPyGD.mkParams a0 b0) x_t y_t.
Proof.
  intros E. unfold error. cbn [value]. fold (yhat x_t).
  rewrite value_yhat. unfold NumPyGD.error, arr_sub.
  apply bcast2_same_length. rewrite length_yhat. now symmetry.
Qed.

(** The gradient that flows back from the mean through the square. *)
Lemma square_backward (c : R) (e : ndarray) :
  ewise2 Rmult (map (fun _ => c) (map (fun t => t ^ 2) e))
    (map (fun t => INR 2 * t ^ (2 - 1)) e)
  = map (fun t => c * (2 * t)) e.
Proof.
  unfold ewise2. induction e as [|t e IH]; [reflexivity|].
  cbn [map combine fst snd]. rewrite IH. f_equal.
  simpl. ring.
Qed.

Lemma arr_sum_map_scal (k : R) (e : ndarray) :
  arr_sum (map (fun t => k * t) e) = k * arr_sum e.
Proof.
  induction e as [|t e IH]; simpl; [ring | rewrite IH; ring].
Qed.

Lemma arr_sum_ewise2_scal (k : R) (e x_t : ndarray) :
  arr_sum (ewise2 Rmult (map (fun t => k * t) e) x_t)
  = k * arr_sum (ewise2 Rmult x_t e).
Proof.
  unfold ewise2. revert x_t. induction e as [|t e IH]; intros [|x0 x_t];
    simpl; try ring.
  rewrite IH. ring.
Qed.

Lemma arr_sum_bcast2_sum_to_size (n : nat) (g x_t : ndarray) :
  length g = n -> length x_t = n ->
  arr_sum (bcast2 Rmult (sum_to_size n g) x_t)
  = arr_sum (ewise2 Rmult g x_t).
Proof.
  intros Lg Lx. unfold sum_to_size.
  destruct (Nat.eqb_spec n 1) as [E|E].
  - subst n. destruct g as [|v [|w g]]; try discriminate.
    destruct x_t as [|x0 [|x1 x_t]]; try discriminate.
    unfold ewise2. simpl. ring.
  - rewrite bcast2_same_length by lia. reflexivity.
Qed.

Lemma arr_sum_ewise2_sum_to_size (n : nat) (g x_t : ndarray) :
  length g = n -> length x_t = n ->
  arr_sum (ewise2 Rmult (sum_to_size n g) x_t)
  = arr_sum (ewise2 Rmult g x_t).
Proof.
  intros Lg Lx. unfold sum_to_size.
  destruct (Nat.eqb_spec n 1) as [E|E]; [|reflexivity].
  subst n. destruct g as [|v [|w g]]; try discriminate.
  destruct x_t as [|x0 [|x1 x_t]]; try discriminate.
  unfold ewise2. simpl. ring.
Qed.

Lemma backprop_yhat a0 b0 x_t up :
  backprop a0 b0 (yhat x_t) up
  = [(A, arr_sum (sum_to_size 1 up));
     (B, arr_sum (sum_to_size 1
                    (bcast2 Rmult (sum_to_size (length x_t) up) x_t)))].
Proof.
  unfold yhat. cbn [backprop value app length bcast2].
  rewrite length_map. reflexivity.
Qed.

Lemma backprop_error a0 b0 x_t y_t up :
  backprop a0 b0 (error x_t y_t) up
  = backprop a0 b0 (yhat x_t) (sum_to_size (length x_t) (map Ropp up)).
Proof.
  unfold error. cbn [backprop app]. rewrite value_yhat, length_yhat.
  reflexivity.
Qed.

(** What [loss.backward()] sends to the two parameters. *)
Lemma backprop_loss a0 b0 x_t y_t :
  length x_t = length y_t ->
  backprop a0 b0 (loss x_t y_t) [1]
  = [(A, NumPyGD.a_grad (NumPyGD.mkParams a0 b0) x_t y_t);
     (B, NumPyGD.b_grad (NumPyGD.mkParams a0 b0) x_t y_t)].
Proof.
  intros E. unfold loss. cbn [backprop value].
  rewrite value_error by exact E.
  set (p := NumPyGD.mkParams a0 b0).
  set (e := NumPyGD.error p x_t y_t).
  assert (Le : length e = length x_t) by (apply length_error; exact E).
  rewrite (bcast2_same_length Rmult) by now rewrite !length_map.
  rewrite square_backward, length_map.
  rewrite backprop_error, backprop_yhat.
  rewrite map_map.
  set (c := hd 0 [1] / INR (length e)).
  assert (Hc : c = / INR (length e)).
  { unfold c. simpl. unfold Rdiv. ring. }
  rewrite (map_ext _ (fun t => (- (c * 2)) * t)) by (intros; ring).
  f_equal; [|f_equal]; f_equal.
  - rewrite !arr_sum_sum_to_size, arr_sum_map_scal.
    unfold NumPyGD.a_grad, mean. fold e. rewrite Hc. unfold Rdiv. ring.
  - assert (Lg : length (map (fun t => - (c * 2) * t) e) = length x_t)
      by now rewrite length_map.
    rewrite arr_sum_sum_to_size.
    rewrite arr_sum_bcast2_sum_to_size
      by (try apply length_sum_to_size; auto).
    rewrite arr_sum_ewise2_sum_to_size by auto.
    rewrite arr_sum_ewise2_scal.
    unfold NumPyGD.b_grad, mean. fold e.
    unfold arr_mul. rewrite length_ewise2 by congruence.
    rewrite Hc, Le. unfold Rdiv. ring.
Qed.

Lemma accumulate_clear t g :
  grad_clear t ->
  exists g', grad (accumulate t g) = Some g' /\ g' = g
             /\ data (accumulate t g) = data t.
Proof.
  intros [H|H]; unfold accumulate; rewrite H; cbn [grad data];
    eexists; (split; [reflexivity|]); split; try reflexivity; ring.
Qed.

(** One iteration of the autograd loop, started with clear gradients,
    succeeds, computes the parameters of the NumPy step and leaves the
    gradients zeroed. *)
Lemma step_refines_numpy lr x_t y_t st :
  length x_t = length y_t ->
  grad_clear (a st) -> grad_clear (b st) ->
  exists st',
    step lr x_t y_t st = Ok st'
    /\ NumPyGD.mkParams (data (a st')) (data (b st'))
       = NumPyGD.step lr x_t y_t
           (NumPyGD.mkParams (data (a st)) (data (b st)))
    /\ grad (a st') = Some 0 /\ grad (b st') = Some 0.
Proof.
  intros E Ca Cb. unfold step, backward.
  rewrite backprop_loss by exact E.
  cbn [fold_left accumulate_at fst snd a b].
  destruct (accumulate_clear (a st) (NumPyGD.a_grad
              (NumPyGD.mkParams (data (a st)) (data (b st))) x_t y_t) Ca)
    as (ga & Ga & -> & Da).
  destruct (accumulate_clear (b st) (NumPyGD.b_grad
              (NumPyGD.mkParams (data (a st)) (data (b st))) x_t y_t) Cb)
    as (gb & Gb & -> & Db).
  unfold update. rewrite Ga, Gb. cbn [bind]. unfold zero_. cbn [grad bind].
  eexists. split; [reflexivity|].
  cbn [a b data grad]. rewrite Da, Db. repeat split; reflexivity.
Qed.

(** The whole loops agree as well: the gradients are zeroed at the end of
    each iteration, so the next one starts clear again. *)
Lemma train_refines_numpy n_epochs lr x_t y_t : forall st,
  length x_t = length y_t ->
  grad_clear (a st) -> grad_clear (b st) ->
  exists st',
    train n_epochs lr x_t y_t st = Ok st'
    /\ NumPyGD.mkParams (data (a st')) (data (b st'))
       = NumPyGD.train n_epochs lr x_t y_t
           (NumPyGD.mkParams (data (a st)) (data (b st))).
Proof.
  induction n_epochs as [|k IH]; intros st E Ca Cb.
  - exists st. split; reflexivity.
  - destruct (step_refines_numpy lr x_t y_t st E Ca Cb)
      as (st1 & S1 & P1 & Ga & Gb).
    destruct (IH st1 E) as (st' & T & P');
      [right; exact Ga | right; exact Gb |].
    exists st'. cbn [train NumPyGD.train]. rewrite S1. cbn [bind].
    split; [exact T|]. rewrite P'. now rewrite P1.
Qed.

End AutogradGradients.

(** C2, amended.  In exact arithmetic, for every batch (equally many
    features and labels, at least one) and every starting parameter pair,
    one step of the NumPy loop with the hand-written gradients and one step
    of the autograd loop ([loss.backward()], update under [no_grad],
    [grad.zero_()]), started like the loop with gradients that are still
    unset or zeroed, produce the same updated [a] and [b].  (On the
    machine the NumPy loop works in float64 and the autograd loop in
    float32, and the two results differ by the rounding; see the
    counterexample below.) *)
Theorem autograd_step_equals_analytic_step_in_exact_arithmetic
    (lr : R) (x_train y_train : ndarray) (st : Autograd.state) :
  length x_train = length y_train ->
  (0 < length x_train)%nat ->
  Autograd.grad_clear (Autograd.a st) ->
  Autograd.grad_clear (Autograd.b st) ->
  let p := NumPyGD.step lr x_train y_train
             (NumPyGD.mkParams (Autograd.data (Autograd.a st))
                               (Autograd.data (Autograd.b st))) in
  exists st',
    Autograd.step lr x_train y_train st = Ok st'
    /\ Autograd.data (Autograd.a st') = NumPyGD.a p
    /\ Autograd.data (Autograd.b st') = NumPyGD.b p.
Proof.
  intros E _ Ca Cb p.
  destruct (step_refines_numpy lr x_train y_train st E Ca Cb)
    as (st' & S1 & P1 & _).
  exists st'. split; [exact S1|].
  fold p in P1. split; rewrite <- P1; reflexivity.
Qed.

Lemma autograd_step_equals_witness :
  let st := Autograd.mkState (Autograd.mkLeaf 0 None)
                             (Autograd.mkLeaf 0 None) in
  let p := NumPyGD.step 0.1 [1; 2] [3; 5] (NumPyGD.mkParams 0 0) in
  exists st',
    Autograd.step 0.1 [1; 2] [3; 5] st = Ok st'
    /\ Autograd.data (Autograd.a st') = NumPyGD.a p
    /\ Autograd.data (Autograd.b st') = NumPyGD.b p.
Proof.
  apply (autograd_step_equals_analytic_step_in_exact_arithmetic
           0.1 [1; 2] [3; 5]
           (Autograd.mkState (Autograd.mkLeaf 0 None)
                             (Autograd.mkLeaf 0 None))).
  - reflexivity.
  - simpl. lia.
  - left. reflexivity.
  - left. reflexivity.
Defined.

(** ** Float64 against float32 *)

Lemma powerRZ_2_nonneg (z : Z) : (0 <= z)%Z -> powerRZ 2 z = IZR (2 ^ z).
Proof.
  intros H. destruct z as [|q|q]; try lia.
  - reflexivity.
  - change (2 ^ Z.pos q)%Z with (Z.pow_pos 2 q).
    now rewrite Zpower_pos_powerRZ.
Qed.

Lemma powerRZ_2_neg (z : Z) :
  (0 <= z)%Z -> powerRZ 2 (Z.opp z) = / IZR (2 ^ z).
Proof. intros H. now rewrite powerRZ_neg', powerRZ_2_nonneg. Qed.

Lemma powerRZ_2_mono (m n : Z) : (m <= n)%Z -> powerRZ 2 m <= powerRZ 2 n.
Proof.
  intros H. replace n with (m + (n - m))%Z by lia.
  rewrite powerRZ_add by lra.
  rewrite (powerRZ_2_nonneg (n - m)) by lia.
  assert (1 <= IZR (2 ^ (n - m))).
  { apply IZR_le. pose proof (Z.pow_pos_nonneg 2 (n - m)). lia. }
  pose proof (powerRZ_lt 2 m). nra.
Qed.

(** No binary32 number is within [1e-6] of the binary64 number
    [7040392854975284 * 2 ^ -45] (printed 200.10000000000002): between 128
    and 256 the binary32 numbers are the multiples of [2 ^ -16], and the
    two nearest ones are more than [6e-6] away. *)
Lemma binary32_gap (v : R) :
  binary32 v ->
  1e-6 < Rabs (v - 1 * IZR 7040392854975284 * powerRZ 2 (-45)).
Proof.
  intros (m & e & Hm & He & ->).
  destruct (Rlt_le_dec 1e-6
              (Rabs (IZR m * powerRZ 2 e
                     - 1 * IZR 7040392854975284 * powerRZ 2 (-45))))
    as [L|L]; [exact L | exfalso].
  assert (B : -1e-6 <= IZR m * powerRZ 2 e
                       - 1 * IZR 7040392854975284 * powerRZ 2 (-45)
              <= 1e-6).
  { unfold Rabs in L. destruct (Rcase_abs _); lra. }
  clear L.
  change (-45)%Z with (Z.opp 45) in B.
  rewrite (powerRZ_2_neg 45) in B by lia.
  change (2 ^ 45)%Z with 35184372088832%Z in B.
  assert (Bm : -16777216 <= IZR m <= 16777216).
  { split; apply IZR_le; change (2 ^ 24)%Z with 16777216%Z in Hm; lia. }
  destruct (Z_le_gt_dec e (-17)) as [S|S].
  - pose proof (powerRZ_2_mono e (-17) S) as Hp.
    change (-17)%Z with (Z.opp 17) in Hp.
    rewrite (powerRZ_2_neg 17) in Hp by lia.
    change (2 ^ 17)%Z with 131072%Z in Hp.
    pose proof (powerRZ_lt 2 e ltac:(lra)) as Hp0.
    assert (U : IZR m * powerRZ 2 e <= 16777216 * / 131072).
    { apply Rle_trans with (16777216 * powerRZ 2 e).
      - apply Rmult_le_compat_r; lra.
      - apply Rmult_le_compat_l; lra. }
    lra.
  - replace e with ((e + 16) + Z.opp 16)%Z in B by lia.
    rewrite powerRZ_add in B by lra.
    rewrite (powerRZ_2_nonneg (e + 16)) in B by lia.
    rewrite (powerRZ_2_neg 16) in B by lia.
    change (2 ^ 16)%Z with 65536%Z in B.
    rewrite <- Rmult_assoc, <- mult_IZR in B.
    set (k := (m * 2 ^ (e + 16))%Z) in B.
    assert (H1 : IZR (k * 536870912 - 7040392854975284) <= IZR 35184373).
    { rewrite minus_IZR, mult_IZR. lra. }
    assert (H2 : IZR (-35184373)
                 <= IZR (k * 536870912 - 7040392854975284)).
    { rewrite minus_IZR, mult_IZR. lra. }
    apply le_IZR in H1, H2. lia.
Qed.

(** C2, as stated, fails on the code.  On the batch [x = [1.0]],
    [y = [1000.5]] from [a = b = 0] with [lr = 0.1] (all of them exact in
    float32 and float64 but [lr], a Python float in both loops), the
    float64 step of the NumPy loop returns [a = 200.10000000000002]; the
    autograd loop keeps [a] in a float32 tensor, and no float32 number is
    within [1e-6] of that value, so whatever the float32 arithmetic
    rounds to, the two updated parameters are more than [1e-6] apart. *)
Lemma float32_step_cannot_match_float64_step :
  let p := Float64GD.step Float64GD.lr [1%float] [1000.5%float]
             (Float64GD.mkParams 0 0) in
  Prim2SF (Float64GD.a p) = S754_finite false 7040392854975284 (-45)
  /\ (forall v : R, binary32 v -> 1e-6 < Rabs (v - to_R (Float64GD.a p))).
Proof.
  assert (E : Prim2SF (Float64GD.a
                (Float64GD.step Float64GD.lr [1%float] [1000.5%float]
                   (Float64GD.mkParams 0 0)))
              = S754_finite false 7040392854975284 (-45))
    by (vm_compute; reflexivity).
  split; [exact E|].
  intros v Hv. unfold to_R. rewrite E. cbn [SF2R].
  now apply binary32_gap.
Qed.

(** ** Swaps and shuffles are permutations *)

Section Swaps.

Lemma length_set_nth {T : Type} i (v : T) l :
  length (set_nth i v l) = length l.
Proof.
  revert i. induction l as [|h l IH]; intros [|i]; simpl; auto.
Qed.

Lemma nth_set_nth_same {T : Type} i (v d : T) l :
  (i < length l)%nat -> nth i (set_nth i v l) d = v.
Proof.
  revert i. induction l as [|h l IH]; intros [|i] H; simpl in *;
    try lia; auto.
  apply IH. lia.
Qed.

Lemma nth_set_nth_other {T : Type} i j (v d : T) l :
  i <> j -> nth j (set_nth i v l) d = nth j l d.
Proof.
  revert i j. induction l as [|h l IH]; intros [|i] [|j] H; simpl;
    try reflexivity; try contradiction.
  apply IH. lia.
Qed.

(** Writing [v] at a position trades the old element for [v]. *)
Lemma set_nth_trade {T : Type} i (v d : T) l :
  (i < length l)%nat ->
  Permutation (nth i l d :: set_nth i v l) (v :: l).
Proof.
  revert i. induction l as [|h l IH]; intros [|i] H; simpl in *; try lia.
  - apply perm_swap.
  - rewrite perm_swap. rewrite (perm_swap h v l).
    apply perm_skip. apply IH. lia.
Qed.

Lemma length_swap i j x : length (swap i j x) = length x.
Proof. unfold swap. now rewrite !length_set_nth. Qed.

Lemma swap_Permutation i j x :
  (i < length x)%nat -> (j < length x)%nat ->
  Permutation (swap i j x) x.
Proof.
  intros Hi Hj. unfold swap.
  set (xi := nth i x O). set (xj := nth j x O).
  set (x1 := set_nth i xj x).
  assert (P1 : Permutation (xi :: x1) (xj :: x))
    by (apply set_nth_trade; exact Hi).
  assert (Hx1 : nth j x1 O = xj).
  { unfold x1. destruct (Nat.eq_dec i j) as [->|N].
    - now apply nth_set_nth_same.
    - now apply nth_set_nth_other. }
  assert (P2 : Permutation (nth j x1 O :: set_nth j xi x1) (xi :: x1)).
  { apply set_nth_trade. unfold x1. now rewrite length_set_nth. }
  rewrite Hx1 in P2.
  apply (Permutation_cons_inv (a := xj)).
  now rewrite P2.
Qed.

End Swaps.

Section NumPyShuffle.

Variable G : RandomState.

Lemma shuffle_from_Permutation i : forall x s,
  (i < length x)%nat ->
  Permutation (fst (NumPyGD.shuffle_from G i x s)) x.
Proof.
  induction i as [|i IH]; intros x s H; simpl.
  - reflexivity.
  - pose proof (rs_interval_le G (S i) s) as B.
    destruct (rs_interval G (S i) s) as [j s'] eqn:J. cbn [fst] in B.
    rewrite IH by (rewrite length_swap; lia).
    apply swap_Permutation; lia.
Qed.

Lemma shuffle_Permutation x s :
  Permutation (fst (NumPyGD.shuffle G x s)) x.
Proof.
  unfold NumPyGD.shuffle. destruct x as [|h x].
  - reflexivity.
  - apply shuffle_from_Permutation. simpl. lia.
Qed.

End NumPyShuffle.

Section TorchRandperm.

Import DataLoading.

Variable G : TorchGenerator.

Lemma randperm_from_Permutation k : forall i r s,
  (k = 0 \/ i + k < length r)%nat ->
  Permutation (fst (randperm_from G i k r s)) r.
Proof.
  induction k as [|k IH]; intros i r s H; simpl.
  - reflexivity.
  - destruct (tg_random G s) as [raw s'].
    assert (Hz : (raw mod (length r - i) < length r - i)%nat)
      by (apply Nat.mod_upper_bound; lia).
    rewrite IH by (rewrite length_swap; lia).
    apply swap_Permutation; lia.
Qed.

Lemma randperm_Permutation n s :
  Permutation (fst (randperm G n s)) (seq 0 n).
Proof.
  unfold randperm. apply randperm_from_Permutation.
  rewrite length_seq. lia.
Qed.

End TorchRandperm.

(** ** The splitter *)

Lemma splits_of_Permutation n train val :
  Permutation (train ++ val) (seq 0 n) -> splits n train val.
Proof.
  intros P.
  assert (ND : NoDup (train ++ val)).
  { apply (Permutation_NoDup (l := seq 0 n)); [now symmetry|].
    apply seq_NoDup. }
  assert (Hin : forall i, In i (train ++ val) <-> (i < n)%nat).
  { intros i. split; intros H.
    - apply (Permutation_in _ P), in_seq in H. lia.
    - apply (Permutation_in _ (Permutation_sym P)), in_seq. lia. }
  repeat split.
  - rewrite <- length_app, (Permutation_length P). apply length_seq.
  - intros i Ht Hv. clear P Hin.
    induction train as [|t train IH]; [contradiction|].
    simpl in ND. apply NoDup_cons_iff in ND as [N1 N2].
    destruct Ht as [->|Ht]; [|now apply IH].
    apply N1, in_or_app. now right.
  - intros i Hi. apply NoDup_count_occ'; [exact ND | now apply Hin].
  - intros i. apply Hin.
Qed.

Lemma length_draws {S T : Type} (next : S -> T * S) n : forall s,
  length (fst (draws next n s)) = n.
Proof.
  induction n as [|n IH]; intros s; simpl; [reflexivity|].
  destruct (next s) as [v s1]. specialize (IH s1).
  destruct (draws next n s1) as [vs s2]. simpl in *. now rewrite IH.
Qed.

Lemma take_Ok (x : ndarray) (idx : list nat) :
  Forall (fun i => (i < length x)%nat) idx ->
  exists v, NumPyGD.take x idx = Ok v.
Proof.
  unfold NumPyGD.take.
  induction 1 as [|i idx Hi _ [v IH]]; simpl.
  - now exists [].
  - destruct (nth_error x i) as [xi|] eqn:E.
    + rewrite IH. now exists (xi :: v).
    + apply nth_error_None in E. lia.
Qed.

Section NumPySplit.

Variable G : RandomState.

(** The cell never fails, and its two index arrays split [0, ..., n-1]:
    the first [n_train] shuffled indices and the rest. *)
Lemma generate_splits seed n ti ts ns n_train s0 :
  exists d,
    fst (NumPyGD.generate G seed n ti ts ns n_train s0) = Ok d
    /\ splits n (NumPyGD.train_idx d) (NumPyGD.val_idx d)
    /\ length (NumPyGD.train_idx d) = Nat.min n_train n
    /\ length (NumPyGD.x d) = n /\ length (NumPyGD.y d) = n.
Proof.
  unfold NumPyGD.generate.
  set (s1 := match seed with Some k => rs_seed G k | None => s0 end).
  pose proof (length_draws (rs_random_sample G) n s1) as Lx.
  fold (NumPyGD.rand G n s1) in Lx.
  destruct (NumPyGD.rand G n s1) as [x s2]. cbn [fst snd] in *.
  pose proof (length_draws (rs_standard_normal G) n s2) as Ln.
  fold (NumPyGD.randn G n s2) in Ln.
  destruct (NumPyGD.randn G n s2) as [noise s3]. cbn [fst snd] in *.
  pose proof (shuffle_Permutation G (NumPyGD.arange n) s3) as P.
  destruct (NumPyGD.shuffle G (NumPyGD.arange n) s3) as [idx s4].
  cbn [fst snd] in *. unfold NumPyGD.arange in P.
  set (y := arr_add _ _).
  assert (Ly : length y = n).
  { unfold y, arr_add, ewise2, bcast_add, bcast_mul.
    rewrite length_map, length_combine, !length_map. lia. }
  assert (Li : length idx = n)
    by (rewrite (Permutation_length P); apply length_seq).
  assert (B : Forall (fun i => (i < n)%nat) idx).
  { apply Forall_forall. intros i Hi.
    apply (Permutation_in _ P), in_seq in Hi. lia. }
  rewrite <- (firstn_skipn n_train idx) in B.
  apply Forall_app in B as [Bt Bv].
  destruct (take_Ok x (firstn n_train idx)) as [xt ->]; [now rewrite Lx|].
  destruct (take_Ok y (firstn n_train idx)) as [yt ->]; [now rewrite Ly|].
  destruct (take_Ok x (skipn n_train idx)) as [xv ->]; [now rewrite Lx|].
  destruct (take_Ok y (skipn n_train idx)) as [yv ->]; [now rewrite Ly|].
  cbn [bind]. eexists. split; [reflexivity|].
  cbn [NumPyGD.train_idx NumPyGD.val_idx NumPyGD.x NumPyGD.y].
  split; [|split; [|split]]; try assumption.
  - apply splits_of_Permutation. now rewrite firstn_skipn.
  - now rewrite length_firstn, Li.
Qed.

(** The cell of the notebook: 100 points, 80 for training and 20 for
    validation. *)
Lemma data_generation_cell_sizes s0 :
  exists d,
    fst (NumPyGD.data_generation_cell G s0) = Ok d
    /\ length (NumPyGD.train_idx d) = 80%nat
    /\ length (NumPyGD.val_idx d) = 20%nat.
Proof.
  destruct (generate_splits (Some 42%Z) 100 1 2 0.1 80 s0)
    as (d & E & (L & _) & Lt & _).
  exists d. split; [exact E|]. simpl in Lt. lia.
Qed.

End NumPySplit.

Section TorchSplit.

Import DataLoading.

Variable G : TorchGenerator.

Lemma random_split_splits d n_train n_val s :
  (n_train + n_val = len d)%nat ->
  exists train val,
    fst (random_split G d [n_train; n_val] s)
      = Ok [Subset d train; Subset d val]
    /\ splits (len d) train val
    /\ length train = n_train /\ length val = n_val.
Proof.
  intros E. unfold random_split.
  replace (list_sum [n_train; n_val]) with (len d) by (simpl; lia).
  rewrite Nat.eqb_refl.
  pose proof (randperm_Permutation G (len d) s) as P.
  destruct (randperm G (len d) s) as [indices s']. cbn [fst] in *.
  assert (L : length indices = len d)
    by (rewrite (Permutation_length P); apply length_seq).
  cbn [slices map].
  exists (firstn n_train indices), (firstn n_val (skipn n_train indices)).
  assert (V : firstn n_val (skipn n_train indices) = skipn n_train indices).
  { apply firstn_all2. rewrite length_skipn. lia. }
  rewrite V. split; [reflexivity|]. split; [|split].
  - apply splits_of_Permutation. now rewrite firstn_skipn.
  - rewrite length_firstn. lia.
  - rewrite length_skipn. lia.
Qed.

(** A split whose lengths do not add up to the size of the dataset is
    refused. *)
Lemma random_split_bad_lengths d lengths s :
  list_sum lengths <> len d ->
  random_split G d lengths s = (Err InvalidArgument, s).
Proof.
  intros N. unfold random_split.
  now destruct (Nat.eqb_spec (list_sum lengths) (len d)).
Qed.

End TorchSplit.

(** C3.  For every dataset size and every split configuration, both
    splitters return a training and a validation index list that partition
    the indices: the data generation cell of notebook 1 (seeded shuffle of
    [0, ..., n-1], the first [k] indices for training, the rest for
    validation), and [random_split] for two lengths that add up to the size
    of the dataset.  The lengths of the two lists add up to the size, the
    lists are disjoint, and every index in [0, size) appears exactly once
    across the two. *)
Theorem split_partitions_the_indices
    (GN : RandomState) (GT : TorchGenerator)
    (seed : option Z) (n k : nat) (true_intercept true_slope noise_std : R)
    (s0 : rs_state GN)
    (d : DataLoading.dataset) (n_train n_val : nat) (s : tg_state GT) :
  (n_train + n_val = DataLoading.len d)%nat ->
  (exists ds,
     fst (NumPyGD.generate GN seed n true_intercept true_slope noise_std
            k s0) = Ok ds
     /\ splits n (NumPyGD.train_idx ds) (NumPyGD.val_idx ds))
  /\
  (exists train val,
     fst (DataLoading.random_split GT d [n_train; n_val] s)
       = Ok [DataLoading.Subset d train; DataLoading.Subset d val]
     /\ splits (DataLoading.len d) train val
     /\ length train = n_train /\ length val = n_val).
Proof.
  intros E. split.
  - destruct (generate_splits GN seed n true_intercept true_slope noise_std
                k s0) as (ds & H1 & H2 & _).
    now exists ds.
  - destruct (random_split_splits GT d n_train n_val s E)
      as (train & val & H).
    now exists train, val.
Qed.

Lemma split_partitions_witness :
  let d := DataLoading.Tensors [1; 2; 3; 4; 5] [3; 5; 7; 9; 11] in
  (exists ds,
     fst (NumPyGD.generate lcg_random_state (Some 42%Z) 5 1 2 0.1 4 0%Z)
       = Ok ds
     /\ splits 5 (NumPyGD.train_idx ds) (NumPyGD.val_idx ds))
  /\
  (exists train val,
     fst (DataLoading.random_split lcg_torch_generator d [4; 1]%nat 42%Z)
       = Ok [DataLoading.Subset d train; DataLoading.Subset d val]
     /\ splits (DataLoading.len d) train val
     /\ length train = 4%nat /\ length val = 1%nat).
Proof.
  apply (split_partitions_the_indices lcg_random_state lcg_torch_generator
           (Some 42%Z) 5 4 1 2 0.1 0%Z
           (DataLoading.Tensors [1; 2; 3; 4; 5] [3; 5; 7; 9; 11]) 4 1 42%Z).
  reflexivity.
Defined.

(** ** The batcher *)

Section Batcher.

Import DataLoading.

(** Cutting into batches loses nothing and keeps the order. *)
Lemma concat_batch_loop batch_size order : forall batch,
  concat (batch_loop batch_size order batch) = batch ++ order.
Proof.
  induction order as [|idx rest IH]; intros batch; simpl.
  - destruct batch; simpl; now rewrite ?app_nil_r.
  - destruct (_ =? _)%Z; simpl; rewrite IH; simpl;
      now rewrite <- app_assoc.
Qed.

(** The batches are full ones followed by at most one shorter batch. *)
Lemma batch_loop_shape batch_size order : forall batch,
  (0 < batch_size)%Z ->
  (Z.of_nat (length batch) < batch_size)%Z ->
  exists fulls tail,
    batch_loop batch_size order batch = fulls ++ tail
    /\ Forall (fun b => Z.of_nat (length b) = batch_size) fulls
    /\ (tail = []
        \/ exists last, tail = [last]
           /\ (0 < Z.of_nat (length last) < batch_size)%Z).
Proof.
  induction order as [|idx rest IH]; intros batch Hb Hl; simpl.
  - exists []. destruct batch as [|h batch]; simpl.
    + exists []. auto.
    + exists [h :: batch]. repeat split; auto.
      right. exists (h :: batch). split; [reflexivity|].
      simpl length in *. lia.
  - destruct (Z.eqb_spec (Z.of_nat (length (batch ++ [idx]))) batch_size)
      as [E|N].
    + destruct (IH [] Hb) as (fulls & tail & -> & F & T); [simpl; lia|].
      exists ((batch ++ [idx]) :: fulls), tail. repeat split; auto.
    + apply IH; [exact Hb|]. rewrite length_app in *. simpl in *. lia.
Qed.

Lemma length_concat_fulls (b : nat) (fulls : list (list nat)) :
  Forall (fun l => length l = b) fulls ->
  length (concat fulls) = (b * length fulls)%nat.
Proof.
  induction 1 as [|l fulls Hl _ IH]; simpl; [lia|].
  rewrite length_app, IH, Hl. lia.
Qed.

(** Number and sizes of the batches cut from [n] positions. *)
Lemma batch_loop_count batch_size order :
  (0 < batch_size)%Z ->
  let bs := batch_loop batch_size order [] in
  let n := Z.of_nat (length order) in
  Z.of_nat (length bs) = ((n + batch_size - 1) / batch_size)%Z
  /\ (forall i, (i + 1 < length bs)%nat ->
        Z.of_nat (length (nth i bs [])) = batch_size)
  /\ (bs <> [] ->
        Z.of_nat (length (last bs []))
        = if (n mod batch_size =? 0)%Z then batch_size
          else (n mod batch_size)%Z).
Proof.
  intros Hb bs n.
  destruct (batch_loop_shape batch_size order [] Hb)
    as (fulls & tail & E & F & T); [simpl; lia|].
  pose proof (concat_batch_loop batch_size order []) as C.
  fold bs in E, C. simpl in C.
  assert (Fn : Forall (fun l => length l = Z.to_nat batch_size) fulls).
  { eapply Forall_impl; [|exact F]. simpl. intros l Hl. lia. }
  apply length_concat_fulls in Fn.
  assert (Ln : n = (batch_size * Z.of_nat (length fulls)
                    + Z.of_nat (length (concat tail)))%Z).
  { unfold n. rewrite <- C, E, concat_app, length_app, Fn. lia. }
  assert (Hfull : forall i, (i < length fulls)%nat ->
            Z.of_nat (length (nth i fulls [])) = batch_size).
  { intros i Hi. rewrite Forall_forall in F. apply F. now apply nth_In. }
  destruct T as [->|(lst & -> & Hlast)].
  - rewrite app_nil_r in E. simpl in Ln. rewrite E.
    assert (M : (n mod batch_size = 0)%Z).
    { rewrite Ln, Z.add_0_r, Z.mul_comm. now apply Z.mod_mul; lia. }
    repeat split.
    + apply (Z.div_unique_pos _ _ _ (batch_size - 1)); lia.
    + intros i Hi. apply Hfull. lia.
    + intros NE. rewrite M. simpl.
      rewrite Forall_forall in F. apply F.
      destruct fulls as [|f fulls]; [contradiction|].
      apply (@exists_last _ (f :: fulls)) in NE as (l' & a & ->).
      rewrite last_last. apply in_or_app. right. now left.
  - simpl in Ln. rewrite app_nil_r in Ln. rewrite E.
    assert (M : (n mod batch_size = Z.of_nat (length lst))%Z).
    { symmetry. apply (Z.mod_unique_pos _ _ (Z.of_nat (length fulls))); lia. }
    repeat split.
    + rewrite length_app. simpl.
      apply (Z.div_unique_pos _ _ _ (Z.of_nat (length lst) - 1)); lia.
    + intros i Hi. rewrite length_app in Hi. simpl in Hi.
      rewrite app_nth1 by lia. apply Hfull. lia.
    + intros _. rewrite last_last, M.
      destruct (Z.eqb_spec (Z.of_nat (length lst)) 0); lia.
Qed.

Variable G : TorchGenerator.

Lemma sampler_Permutation shuffle n s :
  Permutation (fst (sampler G shuffle n s)) (seq 0 n).
Proof.
  unfold sampler. destruct shuffle; [apply randperm_Permutation|].
  reflexivity.
Qed.

Lemma sampler_unshuffled n s : sampler G false n s = (seq 0 n, s).
Proof. reflexivity. Qed.

Lemma map_nth_seq (indices : list nat) :
  map (fun k => nth k indices O) (seq 0 (length indices)) = indices.
Proof.
  induction indices as [|h indices IH]; [reflexivity|].
  simpl. f_equal. rewrite <- seq_shift, map_map. exact IH.
Qed.

(** What [iterate] returns for a positive batch size, in terms of the
    order chosen by the sampler. *)
Lemma iterate_positive d indices batch_size shuffle s :
  (0 < batch_size)%Z ->
  iterate G d indices batch_size shuffle s
  = (Ok (map (map (fun k => nth k indices O))
           (batch_loop batch_size
              (fst (sampler G shuffle (length indices) s)) [])),
     snd (sampler G shuffle (length indices) s)).
Proof.
  intros Hb. unfold iterate, DataLoader.
  destruct (Z.leb_spec batch_size 0) as [L|_]; [lia|].
  unfold batch_sampler. cbn [dl_dataset dl_shuffle dl_batch_size len].
  now destruct (sampler G shuffle (length indices) s).
Qed.

End Batcher.

Lemma last_map {T U : Type} (f : T -> U) (l : list T) (d : T) :
  last (map f l) (f d) = f (last l d).
Proof.
  induction l as [|h [|h' l] IH]; try reflexivity.
  exact IH.
Qed.

(** C4.  For every index list and every positive batch size, the
    concatenation of the batches of one pass of the batcher is a
    permutation of the input indices: every index occurs in it as often as
    in the input, shuffled or not; without shuffling the concatenation is
    the input itself. *)
Theorem batches_cover_the_indices
    (G : TorchGenerator) (d : DataLoading.dataset) (indices : list nat)
    (batch_size : Z) (shuffle : bool) (s : tg_state G) :
  (0 < batch_size)%Z ->
  exists batches,
    fst (DataLoading.iterate G d indices batch_size shuffle s) = Ok batches
    /\ Permutation (concat batches) indices
    /\ (forall i, count_occ Nat.eq_dec (concat batches) i
                  = count_occ Nat.eq_dec indices i)
    /\ (shuffle = false -> concat batches = indices).
Proof.
  intros Hb. rewrite iterate_positive by exact Hb. cbn [fst].
  eexists. split; [reflexivity|].
  rewrite <- concat_map, concat_batch_loop. cbn [app].
  assert (P : Permutation
                (map (fun k => nth k indices O)
                   (fst (DataLoading.sampler G shuffle (length indices) s)))
                indices).
  { apply (Permutation_trans
             (l' := map (fun k => nth k indices O)
                      (seq 0 (length indices)))).
    - apply Permutation_map, sampler_Permutation.
    - now rewrite map_nth_seq. }
  split; [exact P|]. split.
  - now apply Permutation_count_occ.
  - intros ->. rewrite sampler_unshuffled. cbn [fst]. apply map_nth_seq.
Qed.

Lemma batches_cover_witness :
  exists batches,
    fst (DataLoading.iterate lcg_torch_generator (DataLoading.Tensors [] [])
           [10; 20; 30; 40; 50]%nat 2 true 1%Z) = Ok batches
    /\ Permutation (concat batches) [10; 20; 30; 40; 50]%nat
    /\ (forall i, count_occ Nat.eq_dec (concat batches) i
                  = count_occ Nat.eq_dec [10; 20; 30; 40; 50]%nat i)
    /\ (true = false -> concat batches = [10; 20; 30; 40; 50]%nat).
Proof.
  apply (batches_cover_the_indices lcg_torch_generator
           (DataLoading.Tensors [] []) [10; 20; 30; 40; 50]%nat 2 true 1%Z).
  reflexivity.
Defined.

(** C5.  For every index list of length [n] and every positive batch size
    [b], one pass of the batcher yields [ceil(n / b)] batches (written
    [(n + b - 1) / b]); every batch but the last has exactly [b] samples;
    the last one has [n mod b] samples, or [b] when [b] divides [n]. *)
Theorem number_and_sizes_of_batches
    (G : TorchGenerator) (d : DataLoading.dataset) (indices : list nat)
    (batch_size : Z) (shuffle : bool) (s : tg_state G) :
  (0 < batch_size)%Z ->
  let n := Z.of_nat (length indices) in
  exists batches,
    fst (DataLoading.iterate G d indices batch_size shuffle s) = Ok batches
    /\ Z.of_nat (length batches) = ((n + batch_size - 1) / batch_size)%Z
    /\ (forall i, (i + 1 < length batches)%nat ->
          Z.of_nat (length (nth i batches [])) = batch_size)
    /\ (batches <> [] ->
          Z.of_nat (length (last batches []))
          = if (n mod batch_size =? 0)%Z then batch_size
            else (n mod batch_size)%Z).
Proof.
  intros Hb n. rewrite iterate_positive by exact Hb. cbn [fst].
  eexists. split; [reflexivity|].
  set (order := fst (DataLoading.sampler G shuffle (length indices) s)).
  assert (Lo : length order = length indices).
  { unfold order. rewrite (Permutation_length (sampler_Permutation G _ _ _)).
    apply length_seq. }
  destruct (batch_loop_count batch_size order Hb) as (C1 & C2 & C3).
  rewrite Lo in C1, C3. fold n in C1, C3.
  set (f := fun k => nth k indices O).
  rewrite length_map. split; [exact C1|]. split.
  - intros i Hi.
    change (@nil nat) with (map f []). rewrite map_nth, length_map.
    now apply C2.
  - intros NE.
    change (@nil nat) with (map f []). rewrite last_map, length_map.
    apply C3. intros E. apply NE. now rewrite E.
Qed.

Lemma number_and_sizes_witness :
  let n := Z.of_nat (length (seq 0 10)) in
  exists batches,
    fst (DataLoading.iterate lcg_torch_generator (DataLoading.Tensors [] [])
           (seq 0 10) 4 false 1%Z) = Ok batches
    /\ Z.of_nat (length batches) = ((n + 4 - 1) / 4)%Z
    /\ (forall i, (i + 1 < length batches)%nat ->
          Z.of_nat (length (nth i batches [])) = 4%Z)
    /\ (batches <> [] ->
          Z.of_nat (length (last batches []))
          = if (n mod 4 =? 0)%Z then 4%Z else (n mod 4)%Z).
Proof.
  apply (number_and_sizes_of_batches lcg_torch_generator
           (DataLoading.Tensors [] []) (seq 0 10) 4 false 1%Z).
  reflexivity.
Defined.

(** The loaders of the notebook: 80 training samples in batches of 16, 20
    validation samples in one batch of 20. *)
Example train_loader_batches :
  map (@length nat) (DataLoading.batch_loop 16 (seq 0 80) [])
  = [16; 16; 16; 16; 16]%nat.
Proof. reflexivity. Qed.

Example val_loader_batches :
  map (@length nat) (DataLoading.batch_loop 20 (seq 0 20) []) = [20%nat].
Proof. reflexivity. Qed.

(** C8.  The batcher fails with InvalidArgument exactly when
    [batch_size <= 0]: building the loader fails, at once and before any
    random number is drawn or any batch produced, and so do [iterate] and
    the training cells that build the loader; for every positive batch
    size the loader is built and [iterate] returns its batches. *)
Theorem nonpositive_batch_size_is_rejected
    (G : TorchGenerator) (d : DataLoading.dataset) (indices : list nat)
    (batch_size : Z) (shuffle : bool) (s : tg_state G)
    (n_epochs : nat) (lr : R) (st : DataLoading.run) :
  (DataLoading.DataLoader d batch_size shuffle = Err InvalidArgument
   <-> (batch_size <= 0)%Z)
  /\ ((exists ld, DataLoading.DataLoader d batch_size shuffle = Ok ld)
      <-> (0 < batch_size)%Z)
  /\ (DataLoading.iterate G d indices batch_size shuffle s
      = (Err InvalidArgument, s) <-> (batch_size <= 0)%Z)
  /\ ((exists batches s',
         DataLoading.iterate G d indices batch_size shuffle s
         = (Ok batches, s')) <-> (0 < batch_size)%Z)
  /\ ((batch_size <= 0)%Z ->
      DataLoading.train_cells G n_epochs lr d batch_size shuffle st s
      = (Err InvalidArgument, s)).
Proof.
  unfold DataLoading.train_cells, DataLoading.iterate, DataLoading.DataLoader.
  destruct (Z.leb_spec batch_size 0) as [L|L].
  - repeat split; try reflexivity; try (intros; lia).
    + intros (ld & H). discriminate.
    + intros (bs & s' & H). discriminate.
  - repeat split; try (intros; lia); try discriminate.
    + intros _. eexists. reflexivity.
    + destruct (DataLoading.batch_sampler G _ s). discriminate.
    + intros _. destruct (DataLoading.batch_sampler G _ s).
      eexists _, _. reflexivity.
Qed.

(** ** Fetching batches from a well-formed dataset *)

Section Fetching.

Import DataLoading.

Lemma tensor_index_in_range (t : tensor) (i : nat) :
  (i < length t)%nat -> tensor_index t (Z.of_nat i) = Ok (nth i t 0).
Proof.
  intros H. unfold tensor_index.
  destruct (Z.ltb_spec (Z.of_nat i) 0) as [L|_]; [lia|].
  destruct (Z.leb_spec 0 (Z.of_nat i)) as [_|L]; [|lia].
  destruct (Z.ltb_spec (Z.of_nat i) (Z.of_nat (length t))) as [_|L]; [|lia].
  cbn [andb]. rewrite Nat2Z.id.
  destruct (nth_error t i) as [v|] eqn:E.
  - now rewrite (nth_error_nth _ _ _ E).
  - apply nth_error_None in E. lia.
Qed.

Lemma getitem_Ok d : forall k,
  well_formed d -> (k < len d)%nat ->
  exists item, getitem d (Z.of_nat k) = Ok item.
Proof.
  induction d as [x y | x y | base IH indices]; intros k W H; simpl in *.
  - rewrite !tensor_index_in_range by lia. cbn [bind]. eauto.
  - rewrite !tensor_index_in_range by lia. cbn [bind]. eauto.
  - destruct W as [Wb Wi].
    destruct (Z.ltb_spec (Z.of_nat k) 0) as [L|_]; [lia|].
    destruct (Z.leb_spec 0 (Z.of_nat k)) as [_|L]; [|lia].
    destruct (Z.ltb_spec (Z.of_nat k) (Z.of_nat (length indices)))
      as [_|L]; [|lia].
    cbn [andb]. rewrite Nat2Z.id.
    destruct (nth_error indices k) as [j|] eqn:E.
    + apply IH; [exact Wb|].
      rewrite Forall_forall in Wi. apply Wi. eapply nth_error_In, E.
    + apply nth_error_None in E. lia.
Qed.

Lemma mapM_Ok {T U : Type} (f : T -> result U) (l : list T) :
  Forall (fun x => exists v, f x = Ok v) l ->
  exists vs, mapM f l = Ok vs /\ length vs = length l.
Proof.
  induction 1 as [|x l [v Hx] _ (vs & IH & L)]; simpl.
  - now exists [].
  - rewrite Hx, IH. cbn [bind]. exists (v :: vs). simpl. now rewrite L.
Qed.

Lemma fetch_Ok d batch :
  well_formed d -> Forall (fun k => (k < len d)%nat) batch ->
  exists b, fetch d batch = Ok b.
Proof.
  intros W B. unfold fetch.
  destruct (mapM_Ok (fun k => getitem d (Z.of_nat k)) batch)
    as (items & -> & _).
  - eapply Forall_impl; [|exact B]. intros k Hk. now apply getitem_Ok.
  - cbn [bind]. eauto.
Qed.

Variable G : TorchGenerator.

(** One pass over a loader on a well-formed dataset succeeds and yields
    as many batches as the batch sampler cut. *)
Lemma batches_Ok ld s :
  well_formed (dl_dataset ld) ->
  exists bs,
    batches G ld s = (Ok bs, snd (batch_sampler G ld s))
    /\ length bs = length (fst (batch_sampler G ld s)).
Proof.
  intros W. unfold batches, batch_sampler.
  pose proof (sampler_Permutation G (dl_shuffle ld) (len (dl_dataset ld)) s)
    as P.
  destruct (sampler G (dl_shuffle ld) (len (dl_dataset ld)) s)
    as [order s']. cbn [fst snd] in *.
  destruct (mapM_Ok (fetch (dl_dataset ld))
              (batch_loop (dl_batch_size ld) order []))
    as (bs & E & L).
  - apply Forall_forall. intros batch Hb. apply fetch_Ok; [exact W|].
    apply Forall_forall. intros k Hk.
    assert (Hin : In k (concat (batch_loop (dl_batch_size ld) order [])))
      by (apply in_concat; eauto).
    rewrite concat_batch_loop in Hin. cbn [app] in Hin.
    apply (Permutation_in _ P), in_seq in Hin. lia.
  - exists bs. now rewrite E.
Qed.

(** Without shuffling, a pass neither reads nor advances the generator. *)
Lemma batches_unshuffled ld s s' :
  dl_shuffle ld = false ->
  snd (batches G ld s) = s /\ fst (batches G ld s) = fst (batches G ld s').
Proof.
  intros U. unfold batches, batch_sampler. rewrite U, !sampler_unshuffled.
  split; reflexivity.
Qed.

End Fetching.

(** ** The training and validation passes *)

Section Passes.

Import DataLoading.

(** The loss the validation loop records for one batch, as a function of
    the two parameters only. *)
Lemma validate_batches_frame bs : forall st,
  let st' := fold_left validate_batch bs st in
  weight (mdl st') = weight (mdl st)
  /\ bias (mdl st') = bias (mdl st)
  /\ losses st' = losses st
  /\ updates st' = updates st
  /\ val_losses st'
     = val_losses st
       ++ map (fun batch =>
                 loss_fn (snd batch)
                   (map (fun t => t * weight (mdl st) + bias (mdl st))
                      (fst batch))) bs.
Proof.
  induction bs as [|batch bs IH]; intros st; simpl.
  - now rewrite app_nil_r.
  - destruct (IH (validate_batch st batch)) as (W & B & L & U & V).
    cbn [validate_batch mdl set_eval weight bias losses updates val_losses]
      in W, B, L, U, V.
    repeat split; try assumption.
    rewrite V, <- app_assoc. reflexivity.
Qed.

Lemma train_batch_effect lr st batch :
  updates (train_batch lr st batch) = S (updates st)
  /\ length (losses (train_batch lr st batch)) = S (length (losses st))
  /\ val_losses (train_batch lr st batch) = val_losses st.
Proof.
  unfold train_batch.
  destruct (train_step lr (mdl st) (fst batch) (snd batch)) as [m' l].
  cbn [updates losses val_losses]. rewrite length_app. simpl.
  repeat split; lia.
Qed.

Lemma train_batches_count lr bs : forall st,
  let st' := fold_left (train_batch lr) bs st in
  updates st' = (updates st + length bs)%nat
  /\ length (losses st') = (length (losses st) + length bs)%nat
  /\ val_losses st' = val_losses st.
Proof.
  induction bs as [|batch bs IH]; intros st; simpl.
  - repeat split; lia.
  - destruct (IH (train_batch lr st batch)) as (U & L & V).
    destruct (train_batch_effect lr st batch) as (U1 & L1 & V1).
    rewrite U1 in U. rewrite L1 in L. rewrite V1 in V.
    repeat split; try assumption; lia.
Qed.

Variable G : TorchGenerator.

(** A training pass performs one update per batch. *)
Lemma epoch_train_updates lr ld st s :
  well_formed (dl_dataset ld) ->
  exists st' s',
    epoch_train G lr ld st s = (Ok st', s')
    /\ updates st'
       = (updates st + length (fst (batch_sampler G ld s)))%nat
    /\ length (losses st')
       = (length (losses st) + length (fst (batch_sampler G ld s)))%nat.
Proof.
  intros W. unfold epoch_train.
  destruct (batches_Ok G ld s W) as (bs & -> & L).
  cbn [bind]. eexists _, _. split; [reflexivity|].
  destruct (train_batches_count lr bs st) as (U & Lo & _).
  rewrite U, Lo, L. split; reflexivity.
Qed.

Lemma length_batch_sampler ld s :
  (0 < dl_batch_size ld)%Z ->
  Z.of_nat (length (fst (batch_sampler G ld s)))
  = ((Z.of_nat (len (dl_dataset ld)) + dl_batch_size ld - 1)
     / dl_batch_size ld)%Z.
Proof.
  intros Hb. unfold batch_sampler.
  pose proof (sampler_Permutation G (dl_shuffle ld) (len (dl_dataset ld)) s)
    as P.
  destruct (sampler G (dl_shuffle ld) (len (dl_dataset ld)) s)
    as [order s']. cbn [fst] in *.
  destruct (batch_loop_count (dl_batch_size ld) order Hb) as (C & _).
  rewrite C, (Permutation_length P), length_seq. reflexivity.
Qed.

End Passes.

(** C6.  The validation pass changes no parameter: on every loader over
    a well-formed validation set it runs to the end and leaves the weight
    and the bias as they were; and when the loader does not shuffle, a
    second run right after the first, and any run that starts from the
    same parameters, append the same sequence of losses to the validation
    history as the first. *)
Theorem validation_changes_no_parameter
    (G : TorchGenerator) (val_loader : DataLoading.loader)
    (sta stb : DataLoading.run) (s : tg_state G) :
  DataLoading.well_formed (DataLoading.dl_dataset val_loader) ->
  DataLoading.weight (DataLoading.mdl sta)
    = DataLoading.weight (DataLoading.mdl stb) ->
  DataLoading.bias (DataLoading.mdl sta)
    = DataLoading.bias (DataLoading.mdl stb) ->
  exists sta' s',
    DataLoading.epoch_validate G val_loader sta s = (Ok sta', s')
    /\ DataLoading.weight (DataLoading.mdl sta')
       = DataLoading.weight (DataLoading.mdl sta)
    /\ DataLoading.bias (DataLoading.mdl sta')
       = DataLoading.bias (DataLoading.mdl sta)
    /\ DataLoading.losses sta' = DataLoading.losses sta
    /\ DataLoading.updates sta' = DataLoading.updates sta
    /\ (DataLoading.dl_shuffle val_loader = false ->
        s' = s
        /\ exists sta'' stb' appended,
             DataLoading.val_losses sta'
               = DataLoading.val_losses sta ++ appended
             /\ DataLoading.epoch_validate G val_loader sta' s
                = (Ok sta'', s)
             /\ DataLoading.val_losses sta''
                = DataLoading.val_losses sta ++ appended ++ appended
             /\ DataLoading.epoch_validate G val_loader stb s = (Ok stb', s)
             /\ DataLoading.val_losses stb'
                = DataLoading.val_losses stb ++ appended).
Proof.
  intros W Ew Eb. unfold DataLoading.epoch_validate.
  destruct (batches_Ok G val_loader s W) as (bs & E & _).
  rewrite E. cbn [bind].
  destruct (validate_batches_frame bs sta) as (Fw & Fb & Fl & Fu & Fv).
  eexists _, _. split; [reflexivity|].
  repeat (split; [assumption|]).
  intros U.
  destruct (batches_unshuffled G val_loader s s U) as (Es & _).
  rewrite E in Es. cbn [snd] in Es.
  split; [exact Es|].
  rewrite Es.
  destruct (validate_batches_frame bs stb) as (_ & _ & _ & _ & Fv').
  destruct (validate_batches_frame bs
              (fold_left DataLoading.validate_batch bs sta))
    as (_ & _ & _ & _ & Fv'').
  eexists _, _, _. split; [exact Fv|].
  split; [reflexivity|]. split; [|split; [reflexivity|]].
  - rewrite Fv'', Fv, Fw, Fb, <- app_assoc. reflexivity.
  - rewrite Fv', Ew, Eb. reflexivity.
Qed.

Lemma validation_changes_no_parameter_witness :
  let ld := {| DataLoading.dl_dataset :=
                 DataLoading.Tensors [1; 2; 3] [3; 5; 7];
               DataLoading.dl_batch_size := 2;
               DataLoading.dl_shuffle := false |} in
  let sta := DataLoading.mkRun (DataLoading.mkModel 1 0 true) [] [] 0 in
  let stb := DataLoading.mkRun (DataLoading.mkModel 1 0 false) [] [4] 7 in
  exists sta' s',
    DataLoading.epoch_validate lcg_torch_generator ld sta 5%Z = (Ok sta', s')
    /\ DataLoading.weight (DataLoading.mdl sta')
       = DataLoading.weight (DataLoading.mdl sta)
    /\ DataLoading.bias (DataLoading.mdl sta')
       = DataLoading.bias (DataLoading.mdl sta)
    /\ DataLoading.losses sta' = DataLoading.losses sta
    /\ DataLoading.updates sta' = DataLoading.updates sta
    /\ (DataLoading.dl_shuffle ld = false ->
        s' = 5%Z
        /\ exists sta'' stb' appended,
             DataLoading.val_losses sta'
               = DataLoading.val_losses sta ++ appended
             /\ DataLoading.epoch_validate lcg_torch_generator ld sta' 5%Z
                = (Ok sta'', 5%Z)
             /\ DataLoading.val_losses sta''
                = DataLoading.val_losses sta ++ appended ++ appended
             /\ DataLoading.epoch_validate lcg_torch_generator ld stb 5%Z
                = (Ok stb', 5%Z)
             /\ DataLoading.val_losses stb'
                = DataLoading.val_losses stb ++ appended).
Proof.
  apply (validation_changes_no_parameter lcg_torch_generator
           {| DataLoading.dl_dataset :=
                DataLoading.Tensors [1; 2; 3] [3; 5; 7];
              DataLoading.dl_batch_size := 2;
              DataLoading.dl_shuffle := false |}
           (DataLoading.mkRun (DataLoading.mkModel 1 0 true) [] [] 0)
           (DataLoading.mkRun (DataLoading.mkModel 1 0 false) [] [4] 7)
           5%Z).
  - reflexivity.
  - reflexivity.
  - reflexivity.
Defined.

(** C10.  For tensors [x] and [y] of equal length, [CustomDataset(x, y)]
    and [TensorDataset(x, y)] cannot be told apart: the second is built
    without error, both have length [len(x)], indexing returns the same
    result in both at every integer index, and at every index [i] in
    [0, len(x)) that result is the pair [(x[i], y[i])]. *)
Theorem custom_dataset_is_tensor_dataset
    (x_tensor y_tensor : DataLoading.tensor) :
  length x_tensor = length y_tensor ->
  exists td,
    DataLoading.TensorDataset x_tensor y_tensor = Ok td
    /\ DataLoading.len (DataLoading.CustomDataset x_tensor y_tensor)
       = length x_tensor
    /\ DataLoading.len td = length x_tensor
    /\ (forall index : Z,
          DataLoading.getitem (DataLoading.CustomDataset x_tensor y_tensor)
            index
          = DataLoading.getitem td index)
    /\ (forall i : nat, (i < length x_tensor)%nat ->
          DataLoading.getitem (DataLoading.CustomDataset x_tensor y_tensor)
            (Z.of_nat i)
          = Ok (nth i x_tensor 0, nth i y_tensor 0)).
Proof.
  intros E. unfold DataLoading.TensorDataset, DataLoading.CustomDataset.
  destruct (Nat.eqb_spec (length x_tensor) (length y_tensor)) as [_|N];
    [|contradiction].
  eexists. split; [reflexivity|].
  repeat split; try reflexivity.
  intros i Hi. cbn [DataLoading.getitem].
  rewrite !tensor_index_in_range by lia. reflexivity.
Qed.

Lemma custom_dataset_witness :
  exists td,
    DataLoading.TensorDataset [1; 2; 3] [3; 5; 7] = Ok td
    /\ DataLoading.len (DataLoading.CustomDataset [1; 2; 3] [3; 5; 7])
       = length [1; 2; 3]
    /\ DataLoading.len td = length [1; 2; 3]
    /\ (forall index : Z,
          DataLoading.getitem (DataLoading.CustomDataset [1; 2; 3] [3; 5; 7])
            index
          = DataLoading.getitem td index)
    /\ (forall i : nat, (i < length [1; 2; 3])%nat ->
          DataLoading.getitem (DataLoading.CustomDataset [1; 2; 3] [3; 5; 7])
            (Z.of_nat i)
          = Ok (nth i [1; 2; 3] 0, nth i [3; 5; 7] 0)).
Proof.
  apply (custom_dataset_is_tensor_dataset [1; 2; 3] [3; 5; 7]).
  reflexivity.
Defined.

(** C7.  Two runs of the data generation cell with the same seed (and
    the same size, intercept, slope and noise scale) return the same
    dataset, whatever the global random state was before each run: the
    same features, the same labels, the same split, and the same random
    state afterwards. *)
Theorem generate_is_deterministic
    (G : RandomState) (seed : Z) (n : nat)
    (true_intercept true_slope noise_std : R) (n_train : nat)
    (s0 s0' : rs_state G) :
  NumPyGD.generate G (Some seed) n true_intercept true_slope noise_std
    n_train s0
  = NumPyGD.generate G (Some seed) n true_intercept true_slope noise_std
      n_train s0'.
Proof. reflexivity. Qed.

(** Without the seed line ("comment out for random results") the cell
    does depend on the random state it starts from. *)
Example unseeded_generate_depends_on_state :
  fst (NumPyGD.generate lcg_random_state None 4 1 2 0.1 3 1%Z)
  <> fst (NumPyGD.generate lcg_random_state None 4 1 2 0.1 3 2%Z).
Proof.
  intros H.
  apply (f_equal (fun r => match r with
                           | Ok ds => NumPyGD.train_idx ds
                           | Err _ => []
                           end)) in H.
  vm_compute in H. discriminate H.
Qed.

(** ** The mini-batch step is the NumPy step *)

(** On one batch, [train_step] moves the bias and the weight exactly as
    the NumPy loop moves [a] and [b], and returns the loss the NumPy loop
    computes. *)
Lemma train_step_is_numpy_step lr m (x_batch y_batch : ndarray) :
  let p := NumPyGD.mkParams (DataLoading.bias m) (DataLoading.weight m) in
  let m' := fst (DataLoading.train_step lr m x_batch y_batch) in
  DataLoading.bias m' = NumPyGD.a (NumPyGD.step lr x_batch y_batch p)
  /\ DataLoading.weight m' = NumPyGD.b (NumPyGD.step lr x_batch y_batch p)
  /\ snd (DataLoading.train_step lr m x_batch y_batch)
     = NumPyGD.loss p x_batch y_batch.
Proof.
  intros p m'.
  assert (F : DataLoading.forward (DataLoading.set_train m) x_batch
              = NumPyGD.yhat p x_batch).
  { unfold DataLoading.forward, NumPyGD.yhat, bcast_add, bcast_mul.
    rewrite map_map. apply map_ext. intros t. simpl. ring. }
  unfold m', DataLoading.train_step. cbn [fst snd DataLoading.bias
    DataLoading.weight]. rewrite F.
  repeat split.
Qed.

(** ** The model at work *)

Example numpy_step_example :
  NumPyGD.step 0.1 [1; 2] [3; 5] (NumPyGD.mkParams 0 0)
  = NumPyGD.mkParams 0.8 1.3.
Proof.
  unfold NumPyGD.step, NumPyGD.a_grad, NumPyGD.b_grad, NumPyGD.error,
    NumPyGD.yhat, mean, arr_mul, arr_sub, ewise2, bcast_add, bcast_mul.
  simpl. f_equal; lra.
Qed.

Example numpy_loss_example :
  NumPyGD.loss (NumPyGD.mkParams 0 0) [1; 2] [3; 5] = 17.
Proof.
  unfold NumPyGD.loss, NumPyGD.error, NumPyGD.yhat, mean, arr_sq, arr_sub,
    ewise2, bcast_add, bcast_mul.
  simpl. lra.
Qed.

Example shuffle_example :
  fst (NumPyGD.shuffle lcg_random_state [0; 1; 2; 3; 4]%nat 42%Z)
  = [1; 3; 4; 0; 2]%nat.
Proof. reflexivity. Qed.

Example randperm_example :
  fst (DataLoading.randperm lcg_torch_generator 7 42%Z)
  = [5; 2; 0; 4; 1; 6; 3]%nat.
Proof. reflexivity. Qed.

Example iterate_example :
  fst (DataLoading.iterate lcg_torch_generator (DataLoading.Tensors [] [])
         [10; 20; 30; 40; 50]%nat 2 true 1%Z)
  = Ok [[50; 40]; [30; 10]; [20]]%nat.
Proof. reflexivity. Qed.

Example iterate_zero_batch_size :
  fst (DataLoading.iterate lcg_torch_generator (DataLoading.Tensors [] [])
         [10; 20; 30; 40; 50]%nat 0 true 1%Z)
  = Err InvalidArgument.
Proof. reflexivity. Qed.

Example getitem_last :
  DataLoading.getitem (DataLoading.CustomDataset [1; 2; 3] [3; 5; 7]) (-1)
  = Ok (3, 7).
Proof. reflexivity. Qed.

Example getitem_out_of_range :
  DataLoading.getitem (DataLoading.CustomDataset [1; 2; 3] [3; 5; 7]) 3
  = Err IndexError.
Proof. reflexivity. Qed.

(** With tensors of different lengths the two classes do differ:
    [TensorDataset] refuses them, [CustomDataset] is built and fails only
    when an index reaches past the shorter tensor. *)
Example tensor_dataset_mismatch :
  DataLoading.TensorDataset [1; 2; 3] [3; 5] = Err AssertionError.
Proof. reflexivity. Qed.

Example custom_dataset_mismatch :
  DataLoading.getitem (DataLoading.CustomDataset [1; 2; 3] [3; 5]) 2
  = Err IndexError.
Proof. reflexivity. Qed.

Example random_split_bad_lengths_example :
  fst (DataLoading.random_split lcg_torch_generator
         (DataLoading.Tensors [1; 2; 3] [3; 5; 7]) [2; 2]%nat 1%Z)
  = Err InvalidArgument.
Proof. reflexivity. Qed.

(** * Further properties of the code *)

(** ** The loss along gradient descent *)

Section SumFacts.

Context {A : Type}.

Lemma sum_over_plus (f g : A -> R) l :
  sum_over (fun x => f x + g x) l = sum_over f l + sum_over g l.
Proof.
  unfold sum_over. induction l as [|x l IH]; simpl; [ring|].
  rewrite IH. ring.
Qed.

Lemma sum_over_nonneg (f : A -> R) l :
  (forall x, 0 <= f x) -> 0 <= sum_over f l.
Proof.
  intros H. unfold sum_over. induction l as [|x l IH]; simpl; [lra|].
  specialize (H x). lra.
Qed.

Lemma sum_over_le (f g : A -> R) l :
  (forall x, In x l -> f x <= g x) -> sum_over f l <= sum_over g l.
Proof.
  unfold sum_over. induction l as [|x l IH]; intros H; simpl; [lra|].
  assert (f x <= g x) by (apply H; now left).
  assert (arr_sum (map f l) <= arr_sum (map g l))
    by (apply IH; intros z Hz; apply H; now right).
  lra.
Qed.

Lemma sum_over_const (c : R) (l : list A) :
  sum_over (fun _ => c) l = INR (length l) * c.
Proof.
  unfold sum_over. induction l as [|x l IH]; [simpl; ring|].
  cbn [map arr_sum fold_right length]. fold (arr_sum (map (fun _ => c) l)).
  rewrite IH, S_INR. ring.
Qed.

(** A sum of squares vanishes only when every term does. *)
Lemma sum_over_sq_zero (f : A -> R) l :
  sum_over (fun x => f x ^ 2) l = 0 -> forall x, In x l -> f x = 0.
Proof.
  unfold sum_over. induction l as [|z l IH]; intros H x Hx; [contradiction|].
  cbn [map arr_sum fold_right] in H.
  fold (arr_sum (map (fun x => f x ^ 2) l)) in H.
  assert (N1 : 0 <= f z ^ 2) by apply pow2_ge_0.
  assert (N2 : 0 <= arr_sum (map (fun x => f x ^ 2) l))
    by (apply (sum_over_nonneg (fun x => f x ^ 2)); intros; apply pow2_ge_0).
  destruct Hx as [->|Hx].
  - assert (Z : f x ^ 2 = 0) by lra. simpl in Z. nra.
  - apply IH; [lra | exact Hx].
Qed.

End SumFacts.

Lemma Rinv_INR_nonneg (n : nat) : 0 <= / INR n.
Proof.
  destruct n as [|n].
  - simpl. rewrite Rinv_0. lra.
  - left. apply Rinv_0_lt_compat. apply lt_0_INR. lia.
Qed.

Section LossGeometry.

Import NumPyGD.

Variables (x_train y_train : ndarray).
Hypothesis same_length : length x_train = length y_train.

(** The quadratic term of the loss between two parameter pairs. *)
Let curvature (da db : R) : R :=
  sum_over (fun s => (da + db * snd s) ^ 2) (combine y_train x_train)
  / INR (length (combine y_train x_train)).

(** The loss is a quadratic in the parameters: its value at [q] is its
    value at [p], plus the gradient at [p] along [q - p], plus the mean
    square of the change in the predictions. *)
Lemma loss_expansion p q :
  loss q x_train y_train
  = loss p x_train y_train
    + a_grad p x_train y_train * (a q - a p)
    + b_grad p x_train y_train * (b q - b p)
    + curvature (a q - a p) (b q - b p).
Proof.
  rewrite !loss_samplewise, a_grad_samplewise.
  rewrite b_grad_samplewise by exact same_length.
  unfold curvature. set (S := combine y_train x_train).
  assert (H :
    sum_over (fun s => (fst s - (a q + b q * snd s)) ^ 2) S
    = sum_over (fun s => (fst s - (a p + b p * snd s)) ^ 2) S
      + (a q - a p)
        * sum_over (fun s => -2 * (1 * (fst s - b p * snd s - 1 * a p))) S
      + (b q - b p)
        * sum_over (fun s => -2 * (snd s * (fst s - a p - snd s * b p))) S
      + sum_over (fun s => (a q - a p + (b q - b p) * snd s) ^ 2) S).
  { rewrite <- !sum_over_scal, <- !sum_over_plus.
    apply sum_over_ext. intros s. ring. }
  rewrite H. unfold Rdiv. ring.
Qed.

Lemma curvature_nonneg da db : 0 <= curvature da db.
Proof.
  unfold curvature, Rdiv. apply Rmult_le_pos; [|apply Rinv_INR_nonneg].
  apply (sum_over_nonneg (fun s => _ ^ 2)). intros s. apply pow2_ge_0.
Qed.

Lemma curvature_scal t da db :
  curvature (t * da) (t * db) = t ^ 2 * curvature da db.
Proof.
  unfold curvature, Rdiv. rewrite <- Rmult_assoc. f_equal.
  rewrite <- sum_over_scal. apply sum_over_ext. intros s. ring.
Qed.

Lemma curvature_unit_features da db :
  unit_features x_train -> curvature da db <= 2 * (da ^ 2 + db ^ 2).
Proof.
  intros U. unfold curvature.
  set (S := combine y_train x_train).
  assert (B : sum_over (fun s => (da + db * snd s) ^ 2) S
              <= INR (length S) * (2 * (da ^ 2 + db ^ 2))).
  { rewrite <- sum_over_const. apply sum_over_le. intros s Hs.
    assert (Hx : 0 <= snd s <= 1).
    { unfold unit_features in U. rewrite Forall_forall in U. apply U.
      destruct s as [ys xs]. now apply in_combine_r in Hs. }
    destruct s as [ys t]. cbn [snd] in *.
    pose proof (Rle_0_sqr (da - db * t)) as H1. unfold Rsqr in H1.
    assert (H2 : t * t <= 1) by nra.
    assert (H3 : db * db * (t * t) <= db * db * 1)
      by (apply Rmult_le_compat_l; nra).
    simpl. nra. }
  destruct (length S) as [|n] eqn:L.
  - simpl in *. unfold Rdiv. rewrite Rinv_0. nra.
  - assert (P : 0 < INR (Datatypes.S n)) by (apply lt_0_INR; lia).
    apply (Rmult_le_reg_l (INR (Datatypes.S n))); [exact P|].
    unfold Rdiv. rewrite <- Rmult_assoc, Rinv_r_simpl_m by lra.
    exact B.
Qed.

Lemma stationary_minimises p :
  a_grad p x_train y_train = 0 -> b_grad p x_train y_train = 0 ->
  minimises_loss p x_train y_train.
Proof.
  intros Ga Gb q. rewrite (loss_expansion p q), Ga, Gb.
  pose proof (curvature_nonneg (a q - a p) (b q - b p)). lra.
Qed.

Lemma minimiser_is_stationary p :
  minimises_loss p x_train y_train ->
  a_grad p x_train y_train = 0 /\ b_grad p x_train y_train = 0.
Proof.
  intros M.
  set (ga := a_grad p x_train y_train). set (gb := b_grad p x_train y_train).
  set (G := ga ^ 2 + gb ^ 2).
  set (K := curvature ga gb).
  assert (HK : 0 <= K) by apply curvature_nonneg.
  assert (HG : 0 <= G) by (unfold G; simpl; nra).
  assert (Z : G <= 0).
  { set (t := G / (2 * (K + 1))).
    pose proof (M (mkParams (a p - t * ga) (b p - t * gb))) as Hq.
    rewrite (loss_expansion p (mkParams (a p - t * ga) (b p - t * gb))) in Hq.
    cbn [a b] in Hq.
    fold ga gb in Hq.
    replace (a p - t * ga - a p) with (- t * ga) in Hq by ring.
    replace (b p - t * gb - b p) with (- t * gb) in Hq by ring.
    rewrite curvature_scal in Hq. fold K in Hq.
    assert (Ht : t * (2 * (K + 1)) = G) by (unfold t; field; lra).
    assert (T0 : 0 <= t).
    { unfold t, Rdiv. apply Rmult_le_pos; [exact HG|].
      left. apply Rinv_0_lt_compat. lra. }
    assert (Hq' : 0 <= t * (t * K - G))
      by (unfold G; simpl in Hq |- *; nra).
    nra. }
  assert (G = 0) by lra. unfold G in *. simpl in *. split; nra.
Qed.

Lemma step_fixed_iff_stationary lr p :
  lr <> 0 ->
  (step lr x_train y_train p = p
   <-> a_grad p x_train y_train = 0 /\ b_grad p x_train y_train = 0).
Proof.
  intros Hlr. destruct p as [pa pb]. unfold step. cbn [a b]. split.
  - intros H. injection H as Ha Hb. split.
    + apply (Rmult_eq_reg_l lr); [lra | exact Hlr].
    + apply (Rmult_eq_reg_l lr); [lra | exact Hlr].
  - intros [-> ->]. f_equal; ring.
Qed.

Lemma step_descends lr p :
  unit_features x_train -> 0 <= lr <= 1 / 2 ->
  loss (step lr x_train y_train p) x_train y_train
  <= loss p x_train y_train.
Proof.
  intros U Hlr.
  set (ga := a_grad p x_train y_train). set (gb := b_grad p x_train y_train).
  rewrite (loss_expansion p (step lr x_train y_train p)).
  unfold step. cbn [a b]. fold ga gb.
  replace (a p - lr * ga - a p) with (- lr * ga) by ring.
  replace (b p - lr * gb - b p) with (- lr * gb) by ring.
  rewrite curvature_scal.
  pose proof (curvature_unit_features ga gb U) as HK.
  pose proof (curvature_nonneg ga gb) as HK0.
  assert (HG : 0 <= ga ^ 2 + gb ^ 2) by (simpl; nra).
  assert (L2 : (- lr) ^ 2 * curvature ga gb
               <= lr * (lr * (2 * (ga ^ 2 + gb ^ 2)))).
  { replace ((- lr) ^ 2) with (lr * lr) by ring.
    rewrite Rmult_assoc. apply Rmult_le_compat_l; [lra|].
    apply Rmult_le_compat_l; [lra | exact HK]. }
  assert (L3 : lr * (lr * (2 * (ga ^ 2 + gb ^ 2)))
               <= lr * (ga ^ 2 + gb ^ 2)).
  { apply Rmult_le_compat_l; [lra|]. nra. }
  simpl in *. nra.
Qed.

Lemma train_descends lr n_epochs : forall p,
  unit_features x_train -> 0 <= lr <= 1 / 2 ->
  loss (train n_epochs lr x_train y_train p) x_train y_train
  <= loss p x_train y_train.
Proof.
  induction n_epochs as [|k IH]; intros p U Hlr; simpl; [lra|].
  eapply Rle_trans; [apply IH; assumption|]. now apply step_descends.
Qed.

Lemma loss_nonneg p : 0 <= loss p x_train y_train.
Proof.
  rewrite loss_samplewise. unfold Rdiv.
  apply Rmult_le_pos; [|apply Rinv_INR_nonneg].
  apply (sum_over_nonneg (fun s => _ ^ 2)). intros s. apply pow2_ge_0.
Qed.

Lemma loss_zero_iff p :
  loss p x_train y_train = 0
  <-> Forall (fun e => e = 0) (error p x_train y_train).
Proof.
  rewrite loss_samplewise, error_samplewise.
  set (S := combine y_train x_train). split.
  - intros H. apply Forall_forall. intros e He.
    apply in_map_iff in He as (s & <- & Hs).
    destruct (length S) as [|n] eqn:L.
    + apply length_zero_iff_nil in L. rewrite L in Hs. contradiction.
    + assert (P : 0 < INR (Datatypes.S n)) by (apply lt_0_INR; lia).
      assert (Z : sum_over (fun s => (fst s - (a p + b p * snd s)) ^ 2) S
                  = 0).
      { apply (Rmult_eq_reg_r (/ INR (Datatypes.S n))).
        - rewrite Rmult_0_l. exact H.
        - apply Rinv_neq_0_compat. lra. }
      now apply (sum_over_sq_zero
                   (fun s => fst s - (a p + b p * snd s)) S Z).
  - intros H. rewrite Forall_forall in H.
    assert (Z : sum_over (fun s => (fst s - (a p + b p * snd s)) ^ 2) S
                = 0).
    { apply Rle_antisym.
      - replace 0 with (INR (length S) * 0) by ring.
        rewrite <- sum_over_const. apply sum_over_le. intros s Hs.
        assert (E : fst s - (a p + b p * snd s) = 0)
          by (apply H, in_map_iff; eauto).
        rewrite E. simpl. lra.
      - apply (sum_over_nonneg (fun s => _ ^ 2)). intros s.
        apply pow2_ge_0. }
    rewrite Z. unfold Rdiv. ring.
Qed.

End LossGeometry.

(** X1.  In exact arithmetic, the gradient-descent loop of notebook 1
    stops moving exactly at the least-squares solutions: on a non-empty
    batch and for a non-zero learning rate, one iteration leaves the
    parameters [(a, b)] unchanged if and only if they minimise the batch
    loss over all parameter pairs (the values the notebook's sanity check
    against a linear regression compares with).  The float64 loop only
    approximates this: it can stop one rounding step away from the
    minimiser ([float64_fixed_point_off_the_minimum]). *)
Theorem fixed_points_are_least_squares_solutions
    (lr : R) (x_train y_train : ndarray) (p : NumPyGD.params) :
  length x_train = length y_train ->
  (0 < length x_train)%nat ->
  lr <> 0 ->
  (NumPyGD.step lr x_train y_train p = p
   <-> minimises_loss p x_train y_train).
Proof.
  intros E _ Hlr.
  rewrite (step_fixed_iff_stationary x_train y_train lr p Hlr). split.
  - intros [Ga Gb]. now apply stationary_minimises.
  - now apply minimiser_is_stationary.
Qed.

Lemma fixed_points_witness :
  NumPyGD.step 0.1 [0; 1] [1; 3] (NumPyGD.mkParams 1 2)
    = NumPyGD.mkParams 1 2
  <-> minimises_loss (NumPyGD.mkParams 1 2) [0; 1] [1; 3].
Proof.
  apply (fixed_points_are_least_squares_solutions 0.1 [0; 1] [1; 3]
           (NumPyGD.mkParams 1 2)).
  - reflexivity.
  - simpl. lia.
  - lra.
Defined.

(** In float64 the loop can come to rest next to the minimiser: on the
    batch [x = [0]], [y = [1]] the step leaves
    [(1.0000000000000002, 0)] where it is, although the loss there is
    positive and the loss at [(1, 0)] is zero. *)
Example float64_fixed_point_off_the_minimum :
  let p := Float64GD.mkParams 0x1.0000000000001p0 0 in
  Float64GD.step Float64GD.lr [0%float] [1%float] p = p
  /\ Float64GD.loss (Float64GD.mkParams 1 0) [0%float] [1%float] = 0%float
  /\ (0 <? Float64GD.loss p [0%float] [1%float])%float = true.
Proof. vm_compute. repeat split. Qed.

(** X2.  In exact arithmetic, with a non-empty batch, features in [0, 1]
    (what [np.random.rand] draws) and a learning rate between 0 and 1/2
    (the notebook uses 0.1), no iteration of the gradient-descent loop
    increases the loss, so the loss after any number of epochs is at most
    the loss at the start.  The float64 loop only approximates this: once
    the loss is down at the size of the rounding errors it can rise by
    such an error ([float64_loss_can_rise]). *)
Theorem loss_never_increases
    (lr : R) (n_epochs : nat) (x_train y_train : ndarray)
    (p : NumPyGD.params) :
  length x_train = length y_train ->
  (0 < length x_train)%nat ->
  unit_features x_train ->
  0 <= lr <= 1 / 2 ->
  NumPyGD.loss (NumPyGD.step lr x_train y_train p) x_train y_train
    <= NumPyGD.loss p x_train y_train
  /\ NumPyGD.loss (NumPyGD.train n_epochs lr x_train y_train p)
       x_train y_train
     <= NumPyGD.loss p x_train y_train.
Proof.
  intros E _ U Hlr. split.
  - now apply step_descends.
  - now apply train_descends.
Qed.

Lemma loss_never_increases_witness :
  NumPyGD.loss (NumPyGD.step 0.1 [0; 1] [3; 5] (NumPyGD.mkParams 0 0))
      [0; 1] [3; 5]
    <= NumPyGD.loss (NumPyGD.mkParams 0 0) [0; 1] [3; 5]
  /\ NumPyGD.loss (NumPyGD.train 1000 0.1 [0; 1] [3; 5]
                     (NumPyGD.mkParams 0 0)) [0; 1] [3; 5]
     <= NumPyGD.loss (NumPyGD.mkParams 0 0) [0; 1] [3; 5].
Proof.
  apply (loss_never_increases 0.1 1000 [0; 1] [3; 5] (NumPyGD.mkParams 0 0)).
  - reflexivity.
  - simpl. lia.
  - repeat constructor; lra.
  - lra.
Defined.

(** In float64, on the batch [x = [0, 1]], [y = [3, 5]] from [a = b = 0]
    with [lr = 0.1], the loss after 779 iterations is larger than after
    778; both are of the order of [1e-29]. *)
Example float64_loss_can_rise :
  let x_train := [0%float; 1%float] in
  let y_train := [3%float; 5%float] in
  let loss_after n :=
    Float64GD.loss
      (Float64GD.train n Float64GD.lr x_train y_train
         (Float64GD.mkParams 0 0)) x_train y_train in
  (loss_after 778%nat <? loss_after 779%nat)%float = true
  /\ (loss_after 779%nat <? 0x1p-90)%float = true.
Proof. vm_compute. split; reflexivity. Qed.

(** ** The generated data *)

Lemma take_rows (x : ndarray) (idx : list nat) :
  Forall (fun i => (i < length x)%nat) idx ->
  NumPyGD.take x idx = Ok (map (fun i => nth i x 0) idx).
Proof.
  unfold NumPyGD.take.
  induction 1 as [|i idx Hi _ IH]; simpl; [reflexivity|].
  destruct (nth_error x i) as [xi|] eqn:E.
  - rewrite IH. cbn [bind]. now rewrite (nth_error_nth _ _ _ E).
  - apply nth_error_None in E. lia.
Qed.

(** An index outside the array makes the selection fail. *)
Lemma take_out_of_range (x : ndarray) (idx : list nat) :
  Exists (fun i => (length x <= i)%nat) idx ->
  NumPyGD.take x idx = Err IndexError.
Proof.
  unfold NumPyGD.take.
  induction 1 as [i idx Hi | i idx _ IH]; simpl.
  - apply nth_error_None in Hi. now rewrite Hi.
  - destruct (nth_error x i); [|reflexivity]. now rewrite IH.
Qed.

Section GeneratedData.

Variable G : RandomState.

Lemma generate_rows seed n ti ts ns n_train s0 :
  let s1 := match seed with Some k => rs_seed G k | None => s0 end in
  let features := fst (NumPyGD.rand G n s1) in
  let noise := fst (NumPyGD.randn G n (snd (NumPyGD.rand G n s1))) in
  exists d,
    fst (NumPyGD.generate G seed n ti ts ns n_train s0) = Ok d
    /\ NumPyGD.x d = features
    /\ length features = n /\ length noise = n
    /\ NumPyGD.y d
       = arr_add (bcast_add ti (bcast_mul ts features))
                 (bcast_mul ns noise)
    /\ length (NumPyGD.train_idx d) = Nat.min n_train n
    /\ Forall (fun i => (i < n)%nat) (NumPyGD.train_idx d)
    /\ Forall (fun i => (i < n)%nat) (NumPyGD.val_idx d)
    /\ NumPyGD.x_train d
       = map (fun i => nth i (NumPyGD.x d) 0) (NumPyGD.train_idx d)
    /\ NumPyGD.y_train d
       = map (fun i => nth i (NumPyGD.y d) 0) (NumPyGD.train_idx d)
    /\ NumPyGD.x_val d
       = map (fun i => nth i (NumPyGD.x d) 0) (NumPyGD.val_idx d)
    /\ NumPyGD.y_val d
       = map (fun i => nth i (NumPyGD.y d) 0) (NumPyGD.val_idx d).
Proof.
  intros s1 features noise. unfold features, noise, NumPyGD.generate.
  fold s1. clear features noise.
  pose proof (length_draws (rs_random_sample G) n s1) as Lx.
  fold (NumPyGD.rand G n s1) in Lx.
  destruct (NumPyGD.rand G n s1) as [x s2]. cbn [fst snd] in *.
  pose proof (length_draws (rs_standard_normal G) n s2) as Ln.
  fold (NumPyGD.randn G n s2) in Ln.
  destruct (NumPyGD.randn G n s2) as [noise s3]. cbn [fst snd] in *.
  pose proof (shuffle_Permutation G (NumPyGD.arange n) s3) as P.
  destruct (NumPyGD.shuffle G (NumPyGD.arange n) s3) as [idx s4].
  cbn [fst snd] in *. unfold NumPyGD.arange in P.
  set (y := arr_add _ _).
  assert (Ly : length y = n).
  { unfold y, arr_add, ewise2, bcast_add, bcast_mul.
    rewrite length_map, length_combine, !length_map. lia. }
  assert (Li : length idx = n)
    by (rewrite (Permutation_length P); apply length_seq).
  assert (B : Forall (fun i => (i < n)%nat) idx).
  { apply Forall_forall. intros i Hi.
    apply (Permutation_in _ P), in_seq in Hi. lia. }
  rewrite <- (firstn_skipn n_train idx) in B.
  apply Forall_app in B as [Bt Bv].
  rewrite (take_rows x (firstn n_train idx)) by now rewrite Lx.
  rewrite (take_rows y (firstn n_train idx)) by now rewrite Ly.
  rewrite (take_rows x (skipn n_train idx)) by now rewrite Lx.
  rewrite (take_rows y (skipn n_train idx)) by now rewrite Ly.
  cbn [bind fst]. eexists. split; [reflexivity|].
  cbn [NumPyGD.x NumPyGD.y NumPyGD.train_idx NumPyGD.val_idx
       NumPyGD.x_train NumPyGD.y_train NumPyGD.x_val NumPyGD.y_val].
  repeat split; try assumption; try reflexivity.
  now rewrite length_firstn, Li.
Qed.

End GeneratedData.

(** Row [i] of the labels, read off the generating line. *)
Lemma nth_labels (ti ts ns : R) (x noise : ndarray) (i : nat) :
  length x = length noise -> (i < length x)%nat ->
  nth i (arr_add (bcast_add ti (bcast_mul ts x)) (bcast_mul ns noise)) 0
  = ti + ts * nth i x 0 + ns * nth i noise 0.
Proof.
  unfold arr_add, ewise2, bcast_add, bcast_mul. rewrite !map_map.
  revert noise i. induction x as [|x0 x IH]; intros [|z noise] i E H;
    simpl in *; try lia.
  destruct i as [|i]; [reflexivity|]. apply IH; lia.
Qed.

(** X5.  The data generation cell never fails, and its training and
    validation sets are rows of the generated data.  The features are the
    [n] draws of [np.random.rand] made from the seeded state, the noise
    the [n] draws of [np.random.randn] made right after them, and the
    label in row [i] is [true_intercept + true_slope * x[i] + noise_std *
    noise[i]] with exactly these features and this noise.  [x_train] and
    [y_train] hold, position by position, the feature and the label at the
    same index of [train_idx] (so every feature stays paired with its own
    label), likewise for the validation set. *)
Theorem generated_sets_are_rows_of_the_data
    (G : RandomState) (seed : option Z) (n : nat)
    (true_intercept true_slope noise_std : R) (n_train : nat)
    (s0 : rs_state G) :
  let s1 := match seed with Some k => rs_seed G k | None => s0 end in
  let features := fst (NumPyGD.rand G n s1) in
  let noise := fst (NumPyGD.randn G n (snd (NumPyGD.rand G n s1))) in
  exists d,
    fst (NumPyGD.generate G seed n true_intercept true_slope noise_std
           n_train s0) = Ok d
    /\ NumPyGD.x d = features
    /\ length (NumPyGD.x d) = n /\ length (NumPyGD.y d) = n
    /\ length noise = n
    /\ (forall i, (i < n)%nat ->
          nth i (NumPyGD.y d) 0
          = true_intercept + true_slope * nth i features 0
            + noise_std * nth i noise 0)
    /\ NumPyGD.x_train d
       = map (fun i => nth i (NumPyGD.x d) 0) (NumPyGD.train_idx d)
    /\ NumPyGD.y_train d
       = map (fun i => nth i (NumPyGD.y d) 0) (NumPyGD.train_idx d)
    /\ NumPyGD.x_val d
       = map (fun i => nth i (NumPyGD.x d) 0) (NumPyGD.val_idx d)
    /\ NumPyGD.y_val d
       = map (fun i => nth i (NumPyGD.y d) 0) (NumPyGD.val_idx d).
Proof.
  intros s1 features noise.
  destruct (generate_rows G seed n true_intercept true_slope noise_std
              n_train s0)
    as (d & E & Ex & Lx & Ln & Hy & _ & _ & _ & Xt & Yt & Xv & Yv).
  fold s1 in Ex, Lx, Ln, Hy. fold features in Ex, Lx, Hy.
  fold noise in Ln, Hy.
  exists d. split; [exact E|]. split; [exact Ex|].
  assert (Ly : length (NumPyGD.y d) = n).
  { rewrite Hy. unfold arr_add, ewise2, bcast_add, bcast_mul.
    rewrite length_map, length_combine, !length_map. lia. }
  split; [now rewrite Ex|]. split; [exact Ly|]. split; [exact Ln|].
  split; [|repeat split; assumption].
  intros i Hi. rewrite Hy. apply nth_labels; lia.
Qed.

Lemma zero_loss_is_fixed (x_train y_train : ndarray) p :
  length x_train = length y_train ->
  NumPyGD.loss p x_train y_train = 0 ->
  forall lr, NumPyGD.step lr x_train y_train p = p.
Proof.
  intros E Z lr.
  assert (M : minimises_loss p x_train y_train).
  { intros q. rewrite Z. apply loss_nonneg. }
  destruct (minimiser_is_stationary x_train y_train E p M) as [Ga Gb].
  destruct p as [pa pb]. unfold NumPyGD.step. rewrite Ga, Gb.
  cbn [NumPyGD.a NumPyGD.b]. f_equal; ring.
Qed.

Lemma train_fixed (x_train y_train : ndarray) p lr :
  NumPyGD.step lr x_train y_train p = p ->
  forall n_epochs, NumPyGD.train n_epochs lr x_train y_train p = p.
Proof.
  intros F n_epochs. induction n_epochs as [|k IH]; simpl; [reflexivity|].
  now rewrite F.
Qed.

Lemma combine_map_map {T U V : Type} (f : T -> U) (g : T -> V) l :
  combine (map f l) (map g l) = map (fun i => (f i, g i)) l.
Proof.
  induction l as [|i l IH]; simpl; [reflexivity|]. now rewrite IH.
Qed.

(** X6.  Generation and training compose as expected on noise-free data:
    when the cell generates at least one point and keeps at least one for
    training, and the noise scale is zero, the training set is not empty,
    the line used to generate the labels fits it perfectly (zero loss),
    and gradient descent started at the true intercept and slope stays
    there, for every learning rate and number of epochs. *)
Theorem noise_free_data_keeps_true_parameters
    (G : RandomState) (seed : option Z) (n : nat)
    (true_intercept true_slope : R) (n_train : nat) (s0 : rs_state G)
    (lr : R) (n_epochs : nat) :
  (0 < n)%nat ->
  (0 < n_train)%nat ->
  exists d,
    fst (NumPyGD.generate G seed n true_intercept true_slope 0 n_train s0)
      = Ok d
    /\ (0 < length (NumPyGD.x_train d))%nat
    /\ length (NumPyGD.x_train d) = length (NumPyGD.y_train d)
    /\ NumPyGD.loss (NumPyGD.mkParams true_intercept true_slope)
         (NumPyGD.x_train d) (NumPyGD.y_train d) = 0
    /\ NumPyGD.train n_epochs lr (NumPyGD.x_train d) (NumPyGD.y_train d)
         (NumPyGD.mkParams true_intercept true_slope)
       = NumPyGD.mkParams true_intercept true_slope.
Proof.
  intros Hn Ht.
  destruct (generate_rows G seed n true_intercept true_slope 0 n_train s0)
    as (d & E & Ex & Lx & Ln & Hy & Lt & Bt & _ & Xt & Yt & _ & _).
  exists d. split; [exact E|].
  assert (EL : length (NumPyGD.x_train d) = length (NumPyGD.y_train d))
    by (rewrite Xt, Yt; now rewrite !length_map).
  split; [rewrite Xt, length_map, Lt; lia|]. split; [exact EL|].
  assert (Z : NumPyGD.loss (NumPyGD.mkParams true_intercept true_slope)
                (NumPyGD.x_train d) (NumPyGD.y_train d) = 0).
  { apply (loss_zero_iff _ _ EL). rewrite error_samplewise, Xt, Yt.
    rewrite combine_map_map, map_map. cbn [fst snd NumPyGD.a NumPyGD.b].
    apply Forall_forall. intros e He.
    apply in_map_iff in He as (i & <- & Hi).
    rewrite Forall_forall in Bt. specialize (Bt i Hi).
    rewrite Hy, Ex, nth_labels by lia. ring. }
  split; [exact Z|].
  apply train_fixed. now apply zero_loss_is_fixed.
Qed.

Lemma noise_free_data_witness :
  exists d,
    fst (NumPyGD.generate lcg_random_state (Some 42%Z) 4 1 2 0 3 0%Z)
      = Ok d
    /\ (0 < length (NumPyGD.x_train d))%nat
    /\ length (NumPyGD.x_train d) = length (NumPyGD.y_train d)
    /\ NumPyGD.loss (NumPyGD.mkParams 1 2)
         (NumPyGD.x_train d) (NumPyGD.y_train d) = 0
    /\ NumPyGD.train 1000 0.1 (NumPyGD.x_train d) (NumPyGD.y_train d)
         (NumPyGD.mkParams 1 2)
       = NumPyGD.mkParams 1 2.
Proof.
  apply (noise_free_data_keeps_true_parameters lcg_random_state
           (Some 42%Z) 4 1 2 3 0%Z 0.1 1000); lia.
Defined.

(** ** The autograd loops *)

(** X7.  The whole autograd loop (third attempt) computes the parameters
    of the whole NumPy loop: started from unset or zeroed gradients it
    runs all [n_epochs] iterations without error and ends with exactly the
    [a] and [b] the NumPy loop ends with. *)
Theorem autograd_loop_matches_numpy_loop
    (n_epochs : nat) (lr : R) (x_train y_train : ndarray)
    (st : Autograd.state) :
  length x_train = length y_train ->
  (0 < length x_train)%nat ->
  Autograd.grad_clear (Autograd.a st) ->
  Autograd.grad_clear (Autograd.b st) ->
  let p := NumPyGD.train n_epochs lr x_train y_train
             (NumPyGD.mkParams (Autograd.data (Autograd.a st))
                               (Autograd.data (Autograd.b st))) in
  exists st',
    Autograd.train n_epochs lr x_train y_train st = Ok st'
    /\ Autograd.data (Autograd.a st') = NumPyGD.a p
    /\ Autograd.data (Autograd.b st') = NumPyGD.b p.
Proof.
  intros E _ Ca Cb p.
  destruct (train_refines_numpy n_epochs lr x_train y_train st E Ca Cb)
    as (st' & T & P).
  exists st'. split; [exact T|]. fold p in P.
  split; rewrite <- P; reflexivity.
Qed.

Lemma autograd_loop_witness :
  let st := Autograd.mkState (Autograd.mkLeaf 0 None)
                             (Autograd.mkLeaf 0 None) in
  let p := NumPyGD.train 3 0.1 [1; 2] [3; 5] (NumPyGD.mkParams 0 0) in
  exists st',
    Autograd.train 3 0.1 [1; 2] [3; 5] st = Ok st'
    /\ Autograd.data (Autograd.a st') = NumPyGD.a p
    /\ Autograd.data (Autograd.b st') = NumPyGD.b p.
Proof.
  apply (autograd_loop_matches_numpy_loop 3 0.1 [1; 2] [3; 5]
           (Autograd.mkState (Autograd.mkLeaf 0 None)
                             (Autograd.mkLeaf 0 None))).
  - reflexivity.
  - simpl. lia.
  - left. reflexivity.
  - left. reflexivity.
Defined.






(** ** Indexing a dataset *)

Section Indexing.

Import DataLoading.

(** The position a Python index refers to in a sequence of length [n]. *)
Let position (n index : Z) : nat :=
  Z.to_nat (if (index <? 0)%Z then (index + n)%Z else index).

Lemma tensor_index_inside (t : tensor) (index : Z) :
  (- Z.of_nat (length t) <= index < Z.of_nat (length t))%Z ->
  tensor_index t index
  = Ok (nth (position (Z.of_nat (length t)) index) t 0).
Proof.
  intros H. unfold tensor_index, position.
  set (n := Z.of_nat (length t)) in *.
  set (i := if (index <? 0)%Z then (index + n)%Z else index).
  assert (Hi : (0 <= i < n)%Z)
    by (unfold i; destruct (Z.ltb_spec index 0); lia).
  destruct (Z.leb_spec 0 i) as [_|L]; [|lia].
  destruct (Z.ltb_spec i n) as [_|L]; [|lia].
  cbn [andb].
  destruct (nth_error t (Z.to_nat i)) as [v|] eqn:E.
  - now rewrite (nth_error_nth _ _ _ E).
  - apply nth_error_None in E. lia.
Qed.

Lemma tensor_index_outside (t : tensor) (index : Z) :
  (index < - Z.of_nat (length t) \/ Z.of_nat (length t) <= index)%Z ->
  tensor_index t index = Err IndexError.
Proof.
  intros H. unfold tensor_index.
  set (n := Z.of_nat (length t)) in *.
  destruct (Z.ltb_spec index 0) as [N|N].
  - destruct (Z.leb_spec 0 (index + n)) as [L|L]; [lia|]. reflexivity.
  - destruct (Z.leb_spec 0 index) as [_|L]; [|lia].
    destruct (Z.ltb_spec index n) as [L|_]; [lia|]. reflexivity.
Qed.

(** Indexing a tensor can only fail with IndexError. *)
Lemma tensor_index_cases (t : tensor) (index : Z) :
  (exists v, tensor_index t index = Ok v)
  \/ tensor_index t index = Err IndexError.
Proof.
  destruct (Z_lt_le_dec index (- Z.of_nat (length t))) as [L|L].
  - right. apply tensor_index_outside. now left.
  - destruct (Z_lt_le_dec index (Z.of_nat (length t))) as [U|U].
    + left. rewrite tensor_index_inside by lia. eauto.
    + right. apply tensor_index_outside. now right.
Qed.

Lemma getitem_custom_inside (x y : tensor) (index : Z) :
  length x = length y ->
  (- Z.of_nat (length x) <= index < Z.of_nat (length x))%Z ->
  getitem (CustomDataset x y) index
  = Ok (nth (position (Z.of_nat (length x)) index) x 0,
        nth (position (Z.of_nat (length x)) index) y 0).
Proof.
  intros E H. unfold CustomDataset. cbn [getitem].
  rewrite (tensor_index_inside x) by exact H.
  rewrite (tensor_index_inside y) by (rewrite <- E; exact H).
  rewrite <- E. reflexivity.
Qed.

Lemma getitem_custom_outside (x y : tensor) (index : Z) :
  (index < - Z.of_nat (length x) \/ Z.of_nat (length x) <= index)%Z ->
  getitem (CustomDataset x y) index = Err IndexError.
Proof.
  intros H. unfold CustomDataset. cbn [getitem].
  now rewrite tensor_index_outside.
Qed.

Lemma getitem_custom_cases (x y : tensor) (index : Z) :
  (exists v, getitem (Custom x y) index = Ok v)
  \/ getitem (Custom x y) index = Err IndexError.
Proof.
  cbn [getitem].
  destruct (tensor_index_cases x index) as [[v ->]| ->]; [|now right].
  destruct (tensor_index_cases y index) as [[w ->]| ->]; [|now right].
  left. cbn [bind]. eauto.
Qed.

End Indexing.

(** X10.  Indexing a [CustomDataset] built from tensors of equal length
    [n] follows Python's rules: an index in [0, n) returns the pair at
    that position, an index in [-n, 0) the pair at [index + n] (so [-1]
    is the last sample), and every other index raises IndexError. *)
Theorem custom_dataset_index_bounds
    (x_tensor y_tensor : DataLoading.tensor) (index : Z) :
  length x_tensor = length y_tensor ->
  let n := Z.of_nat (length x_tensor) in
  let d := DataLoading.CustomDataset x_tensor y_tensor in
  ((0 <= index < n)%Z ->
     DataLoading.getitem d index
     = Ok (nth (Z.to_nat index) x_tensor 0, nth (Z.to_nat index) y_tensor 0))
  /\ ((- n <= index < 0)%Z ->
        DataLoading.getitem d index = DataLoading.getitem d (index + n)%Z)
  /\ ((index < - n \/ n <= index)%Z ->
        DataLoading.getitem d index = Err IndexError).
Proof.
  intros E n d. split; [|split].
  - intros H. unfold d. rewrite getitem_custom_inside by (fold n; lia).
    destruct (Z.ltb_spec index 0) as [L|_]; [lia|]. reflexivity.
  - intros H. unfold d.
    rewrite !getitem_custom_inside by (fold n; lia). fold n.
    destruct (Z.ltb_spec index 0) as [_|L]; [|lia].
    destruct (Z.ltb_spec (index + n) 0) as [L|_]; [lia|]. reflexivity.
  - intros H. now apply getitem_custom_outside.
Qed.

Lemma custom_dataset_index_bounds_witness :
  let n := Z.of_nat (length [1; 2; 3]) in
  let d := DataLoading.CustomDataset [1; 2; 3] [3; 5; 7] in
  ((0 <= -1 < n)%Z ->
     DataLoading.getitem d (-1)
     = Ok (nth (Z.to_nat (-1)) [1; 2; 3] 0, nth (Z.to_nat (-1)) [3; 5; 7] 0))
  /\ ((- n <= -1 < 0)%Z ->
        DataLoading.getitem d (-1) = DataLoading.getitem d (-1 + n)%Z)
  /\ ((-1 < - n \/ n <= -1)%Z ->
        DataLoading.getitem d (-1) = Err IndexError).
Proof.
  apply (custom_dataset_index_bounds [1; 2; 3] [3; 5; 7] (-1)%Z).
  reflexivity.
Defined.

(** ** What a pass over a loader delivers *)

Section Delivery.

Import DataLoading.

Lemma getitem_item_at d : forall k,
  well_formed d -> (k < len d)%nat ->
  getitem d (Z.of_nat k) = Ok (item_at d k).
Proof.
  induction d as [x y | x y | base IH indices]; intros k W H; simpl in *.
  - rewrite !tensor_index_in_range by lia. reflexivity.
  - rewrite !tensor_index_in_range by lia. reflexivity.
  - destruct W as [Wb Wi].
    destruct (Z.ltb_spec (Z.of_nat k) 0) as [L|_]; [lia|].
    destruct (Z.leb_spec 0 (Z.of_nat k)) as [_|L]; [|lia].
    destruct (Z.ltb_spec (Z.of_nat k) (Z.of_nat (length indices)))
      as [_|L]; [|lia].
    cbn [andb]. rewrite Nat2Z.id.
    destruct (nth_error indices k) as [j|] eqn:E.
    + rewrite (nth_error_nth _ _ O E). apply IH; [exact Wb|].
      rewrite Forall_forall in Wi. apply Wi. eapply nth_error_In, E.
    + apply nth_error_None in E. lia.
Qed.

Lemma mapM_map {T U : Type} (f : T -> result U) (g : T -> U) l :
  Forall (fun x => f x = Ok (g x)) l -> mapM f l = Ok (map g l).
Proof.
  induction 1 as [|x l Hx _ IH]; simpl; [reflexivity|].
  now rewrite Hx, IH.
Qed.

Lemma fetch_batch_at d batch :
  well_formed d -> Forall (fun k => (k < len d)%nat) batch ->
  fetch d batch = Ok (batch_at d batch).
Proof.
  intros W B. unfold fetch.
  rewrite (mapM_map _ (item_at d)).
  - cbn [bind]. unfold batch_at. now rewrite !map_map.
  - eapply Forall_impl; [|exact B]. intros k Hk.
    now apply getitem_item_at.
Qed.

Lemma combine_batch_at d batch :
  combine (fst (batch_at d batch)) (snd (batch_at d batch))
  = map (item_at d) batch.
Proof.
  unfold batch_at. cbn [fst snd]. rewrite combine_map_map.
  apply map_ext. intros k. now destruct (item_at d k).
Qed.

Lemma delivered_batch_at d (bs : list (list nat)) :
  delivered (map (batch_at d) bs) = map (item_at d) (concat bs).
Proof.
  unfold delivered. rewrite map_map, concat_map. f_equal.
  apply map_ext. intros b. apply combine_batch_at.
Qed.

Variable G : TorchGenerator.

Lemma batch_sampler_positions ld s :
  Forall (Forall (fun k => (k < len (dl_dataset ld))%nat))
    (fst (batch_sampler G ld s))
  /\ Permutation (concat (fst (batch_sampler G ld s)))
       (seq 0 (len (dl_dataset ld)))
  /\ (dl_shuffle ld = false ->
      concat (fst (batch_sampler G ld s)) = seq 0 (len (dl_dataset ld))
      /\ snd (batch_sampler G ld s) = s).
Proof.
  unfold batch_sampler.
  pose proof (sampler_Permutation G (dl_shuffle ld) (len (dl_dataset ld)) s)
    as P.
  assert (U : dl_shuffle ld = false ->
              sampler G (dl_shuffle ld) (len (dl_dataset ld)) s
              = (seq 0 (len (dl_dataset ld)), s))
    by (intros ->; reflexivity).
  destruct (sampler G (dl_shuffle ld) (len (dl_dataset ld)) s)
    as [order s']. cbn [fst snd] in *.
  pose proof (concat_batch_loop (dl_batch_size ld) order []) as C.
  cbn [app] in C. rewrite C. split; [|split].
  - apply Forall_forall. intros b Hb. apply Forall_forall. intros k Hk.
    assert (Hin : In k (concat (batch_loop (dl_batch_size ld) order [])))
      by (apply in_concat; eauto).
    rewrite C in Hin. apply (Permutation_in _ P), in_seq in Hin. lia.
  - exact P.
  - intros E. specialize (U E). now inversion U.
Qed.

(** One pass over a loader on a well-formed dataset, written out. *)
Lemma batches_batch_at ld s :
  well_formed (dl_dataset ld) ->
  batches G ld s
  = (Ok (map (batch_at (dl_dataset ld)) (fst (batch_sampler G ld s))),
     snd (batch_sampler G ld s)).
Proof.
  intros W. destruct (batch_sampler_positions ld s) as (B & _).
  unfold batches. destruct (batch_sampler G ld s) as [bs s'].
  cbn [fst snd] in *. f_equal. apply mapM_map.
  eapply Forall_impl; [|exact B]. intros b Hb.
  now apply fetch_batch_at.
Qed.

End Delivery.

Lemma items_tensors (x y : DataLoading.tensor) :
  length x = length y -> items (DataLoading.Tensors x y) = combine x y.
Proof.
  unfold items. cbn [DataLoading.len item_at].
  revert y. induction x as [|x0 x IH]; intros [|y0 y] E; simpl in *;
    try reflexivity; try discriminate.
  f_equal. rewrite <- seq_shift, map_map. apply IH. lia.
Qed.

(** X11.  One pass over a loader on a well-formed dataset delivers every
    sample exactly once, feature and label together: the samples of all
    batches, concatenated, are a permutation of the samples of the dataset,
    and they are the samples in their original order when the loader does
    not shuffle, in which case the pass leaves the random generator
    untouched.  For [TensorDataset(x, y)] the samples are the pairs
    [(x[i], y[i])]. *)
Theorem a_pass_delivers_every_sample_once
    (G : TorchGenerator) (ld : DataLoading.loader) (s : tg_state G) :
  DataLoading.well_formed (DataLoading.dl_dataset ld) ->
  exists bs s',
    DataLoading.batches G ld s = (Ok bs, s')
    /\ Permutation (delivered bs) (items (DataLoading.dl_dataset ld))
    /\ (DataLoading.dl_shuffle ld = false ->
        delivered bs = items (DataLoading.dl_dataset ld) /\ s' = s)
    /\ (forall x y, DataLoading.dl_dataset ld = DataLoading.Tensors x y ->
        items (DataLoading.dl_dataset ld) = combine x y).
Proof.
  intros W. rewrite (batches_batch_at G ld s W).
  destruct (batch_sampler_positions G ld s) as (_ & P & U).
  eexists _, _. split; [reflexivity|].
  rewrite delivered_batch_at. split; [|split].
  - unfold items. now apply Permutation_map.
  - intros E. destruct (U E) as [C S]. rewrite C. now split.
  - intros x y E. rewrite E in W |- *. now apply items_tensors.
Qed.

Lemma a_pass_delivers_witness :
  let ld := {| DataLoading.dl_dataset :=
                 DataLoading.Tensors [1; 2; 3] [3; 5; 7];
               DataLoading.dl_batch_size := 2;
               DataLoading.dl_shuffle := true |} in
  exists bs s',
    DataLoading.batches lcg_torch_generator ld 5%Z = (Ok bs, s')
    /\ Permutation (delivered bs) (items (DataLoading.dl_dataset ld))
    /\ (DataLoading.dl_shuffle ld = false ->
        delivered bs = items (DataLoading.dl_dataset ld) /\ s' = 5%Z)
    /\ (forall x y, DataLoading.dl_dataset ld = DataLoading.Tensors x y ->
        items (DataLoading.dl_dataset ld) = combine x y).
Proof.
  apply (a_pass_delivers_every_sample_once lcg_torch_generator
           {| DataLoading.dl_dataset :=
                DataLoading.Tensors [1; 2; 3] [3; 5; 7];
              DataLoading.dl_batch_size := 2;
              DataLoading.dl_shuffle := true |} 5%Z).
  reflexivity.
Defined.

Section BatchShapes.

Import DataLoading.

Lemma batch_loop_sizes batch_size order :
  (0 < batch_size)%Z ->
  Forall (fun b => (0 < Z.of_nat (length b) <= batch_size)%Z)
    (batch_loop batch_size order []).
Proof.
  intros Hb.
  destruct (batch_loop_shape batch_size order [] Hb)
    as (fulls & tail & -> & F & T); [simpl; lia|].
  apply Forall_app. split.
  - eapply Forall_impl; [|exact F]. simpl. intros b Hl. lia.
  - destruct T as [->|(lst & -> & Hl)]; constructor; [lia | constructor].
Qed.

End BatchShapes.

(** X12.  A loader with a positive batch size never hands the training
    step an empty or lopsided batch: in every batch of a pass over a
    well-formed dataset, [x_batch] and [y_batch] have the same length, at
    least one and at most [batch_size]. *)
Theorem batches_are_never_empty
    (G : TorchGenerator) (ld : DataLoading.loader) (s : tg_state G) :
  DataLoading.well_formed (DataLoading.dl_dataset ld) ->
  (0 < DataLoading.dl_batch_size ld)%Z ->
  exists bs s',
    DataLoading.batches G ld s = (Ok bs, s')
    /\ Forall (fun batch =>
                 length (fst batch) = length (snd batch)
                 /\ (0 < length (fst batch))%nat
                 /\ (Z.of_nat (length (fst batch))
                     <= DataLoading.dl_batch_size ld)%Z) bs.
Proof.
  intros W Hb. rewrite (batches_batch_at G ld s W).
  eexists _, _. split; [reflexivity|].
  apply Forall_map. unfold DataLoading.batch_sampler.
  destruct (DataLoading.sampler G _ _ s) as [order s']. cbn [fst].
  eapply Forall_impl; [|apply (batch_loop_sizes _ order Hb)].
  intros b Hl. cbv beta in Hl.
  unfold batch_at. cbn [fst snd]. rewrite !length_map.
  repeat split; lia.
Qed.

Lemma batches_are_never_empty_witness :
  let ld := {| DataLoading.dl_dataset :=
                 DataLoading.Tensors [1; 2; 3] [3; 5; 7];
               DataLoading.dl_batch_size := 2;
               DataLoading.dl_shuffle := true |} in
  exists bs s',
    DataLoading.batches lcg_torch_generator ld 5%Z = (Ok bs, s')
    /\ Forall (fun batch =>
                 length (fst batch) = length (snd batch)
                 /\ (0 < length (fst batch))%nat
                 /\ (Z.of_nat (length (fst batch))
                     <= DataLoading.dl_batch_size ld)%Z) bs.
Proof.
  apply (batches_are_never_empty lcg_torch_generator
           {| DataLoading.dl_dataset :=
                DataLoading.Tensors [1; 2; 3] [3; 5; 7];
              DataLoading.dl_batch_size := 2;
              DataLoading.dl_shuffle := true |} 5%Z).
  - reflexivity.
  - reflexivity.
Defined.

(** ** A dataset that does not check its sizes *)

Section Unchecked.

Import DataLoading.

Lemma mapM_Err {T U : Type} (f : T -> result U) (e : error) l :
  (forall x, (exists v, f x = Ok v) \/ f x = Err e) ->
  Exists (fun x => f x = Err e) l ->
  mapM f l = Err e.
Proof.
  intros C. induction 1 as [x l Hx | x l _ IH]; simpl.
  - now rewrite Hx.
  - destruct (C x) as [[v ->]| ->]; [|reflexivity].
    cbn [bind]. now rewrite IH.
Qed.

Lemma mapM_Err_only {T U : Type} (f : T -> result U) (e : error) l :
  (forall x, (exists v, f x = Ok v) \/ f x = Err e) ->
  forall e', mapM f l = Err e' -> e' = e.
Proof.
  intros C. induction l as [|x l IH]; intros e' E; cbn [mapM] in E.
  - discriminate.
  - destruct (C x) as [[v Hv]|Hv]; rewrite Hv in E; cbn [bind] in E.
    + destruct (mapM f l) as [vs|e''] eqn:M; cbn [bind] in E.
      * discriminate.
      * injection E as <-. now apply IH.
    + now injection E as <-.
Qed.

Lemma fetch_custom_cases x y batch :
  (exists b, fetch (Custom x y) batch = Ok b)
  \/ fetch (Custom x y) batch = Err IndexError.
Proof.
  unfold fetch.
  destruct (mapM (fun k => getitem (Custom x y) (Z.of_nat k)) batch)
    as [items|e] eqn:E.
  - left. cbn [bind]. eauto.
  - right. cbn [bind]. f_equal.
    apply (mapM_Err_only _ IndexError) in E; [exact E|].
    intros k. apply getitem_custom_cases.
Qed.

Lemma fetch_custom_Err x y batch :
  Exists (fun k => getitem (Custom x y) (Z.of_nat k) = Err IndexError)
    batch ->
  fetch (Custom x y) batch = Err IndexError.
Proof.
  intros H. unfold fetch.
  rewrite (mapM_Err _ IndexError); [reflexivity | | exact H].
  intros k. apply getitem_custom_cases.
Qed.

Lemma getitem_custom_short x y :
  (length y < length x)%nat ->
  getitem (Custom x y) (Z.of_nat (length y)) = Err IndexError.
Proof.
  intros H. cbn [getitem]. rewrite tensor_index_in_range by exact H.
  rewrite (tensor_index_outside y) by lia. reflexivity.
Qed.

Variable G : TorchGenerator.

Lemma batches_custom_short x y batch_size shuffle s :
  (length y < length x)%nat ->
  fst (batches G {| dl_dataset := Custom x y;
                    dl_batch_size := batch_size;
                    dl_shuffle := shuffle |} s) = Err IndexError.
Proof.
  intros H. unfold batches.
  set (ld := {| dl_dataset := Custom x y; dl_batch_size := batch_size;
                dl_shuffle := shuffle |}).
  destruct (batch_sampler_positions G ld s) as (_ & P & _).
  destruct (batch_sampler G ld s) as [bs s']. cbn [fst snd] in *.
  apply mapM_Err; [intros b; apply fetch_custom_cases|].
  assert (Hin : In (length y) (concat bs)).
  { apply (Permutation_in _ (Permutation_sym P)), in_seq.
    cbn [len dl_dataset ld]. lia. }
  apply in_concat in Hin as (b & Hb & Hk).
  apply Exists_exists. exists b. split; [exact Hb|].
  apply fetch_custom_Err, Exists_exists.
  exists (length y). split; [exact Hk|]. now apply getitem_custom_short.
Qed.

End Unchecked.

(** X13.  [CustomDataset] does not check that its two tensors have the
    same length (the check [TensorDataset] makes).  With fewer labels than
    features it is built all the same and reports [len(x)] samples, but it
    raises IndexError at the first position past the labels, and every
    pass of a loader over it, and so every training epoch, fails with
    IndexError, whatever the batch size and the shuffle flag. *)
Theorem custom_dataset_does_not_check_sizes
    (G : TorchGenerator) (x_tensor y_tensor : DataLoading.tensor)
    (batch_size : Z) (shuffle : bool) (lr : R) (st : DataLoading.run)
    (s : tg_state G) :
  (length y_tensor < length x_tensor)%nat ->
  let d := DataLoading.CustomDataset x_tensor y_tensor in
  let ld := {| DataLoading.dl_dataset := d;
               DataLoading.dl_batch_size := batch_size;
               DataLoading.dl_shuffle := shuffle |} in
  DataLoading.TensorDataset x_tensor y_tensor = Err AssertionError
  /\ DataLoading.len d = length x_tensor
  /\ DataLoading.getitem d (Z.of_nat (length y_tensor)) = Err IndexError
  /\ fst (DataLoading.batches G ld s) = Err IndexError
  /\ fst (DataLoading.epoch_train G lr ld st s) = Err IndexError.
Proof.
  intros H d ld.
  pose proof (batches_custom_short G x_tensor y_tensor batch_size shuffle s H)
    as B.
  split; [|split; [|split; [|split]]].
  - unfold DataLoading.TensorDataset.
    destruct (Nat.eqb_spec (length x_tensor) (length y_tensor)); [lia|].
    reflexivity.
  - reflexivity.
  - now apply getitem_custom_short.
  - exact B.
  - change (fst (DataLoading.batches G ld s) = Err IndexError) in B.
    unfold DataLoading.epoch_train.
    destruct (DataLoading.batches G ld s) as [r s']. cbn [fst] in *.
    now rewrite B.
Qed.

Lemma custom_dataset_sizes_witness :
  let d := DataLoading.CustomDataset [1; 2; 3] [3; 5] in
  let ld := {| DataLoading.dl_dataset := d;
               DataLoading.dl_batch_size := 2;
               DataLoading.dl_shuffle := true |} in
  let st := DataLoading.mkRun (DataLoading.mkModel 0 0 true) [] [] 0 in
  DataLoading.TensorDataset [1; 2; 3] [3; 5] = Err AssertionError
  /\ DataLoading.len d = length [1; 2; 3]
  /\ DataLoading.getitem d (Z.of_nat (length [3; 5])) = Err IndexError
  /\ fst (DataLoading.batches lcg_torch_generator ld 5%Z) = Err IndexError
  /\ fst (DataLoading.epoch_train lcg_torch_generator 0.1 ld st 5%Z)
     = Err IndexError.
Proof.
  apply (custom_dataset_does_not_check_sizes lcg_torch_generator
           [1; 2; 3] [3; 5] 2 true 0.1
           (DataLoading.mkRun (DataLoading.mkModel 0 0 true) [] [] 0) 5%Z).
  simpl. lia.
Defined.

(** ** Splitting into any number of parts *)

Section SplitParts.

Import DataLoading.

Lemma slices_cover lengths : forall indices,
  list_sum lengths = length indices ->
  concat (slices indices lengths) = indices
  /\ map (@length nat) (slices indices lengths) = lengths.
Proof.
  induction lengths as [|n rest IH]; intros indices E; simpl in *.
  - symmetry in E. apply length_zero_iff_nil in E. now subst.
  - destruct (IH (skipn n indices)) as [C L].
    { rewrite length_skipn. lia. }
    rewrite C, L, firstn_skipn, length_firstn. split; [reflexivity|].
    f_equal. lia.
Qed.

Variable G : TorchGenerator.

Lemma random_split_parts d lengths s :
  well_formed d ->
  list_sum lengths = len d ->
  exists parts,
    fst (random_split G d lengths s) = Ok (map (Subset d) parts)
    /\ map (@length nat) parts = lengths
    /\ Permutation (concat parts) (seq 0 (len d))
    /\ Forall well_formed (map (Subset d) parts).
Proof.
  intros W E. unfold random_split. rewrite E, Nat.eqb_refl.
  pose proof (randperm_Permutation G (len d) s) as P.
  destruct (randperm G (len d) s) as [indices s']. cbn [fst] in *.
  assert (L : list_sum lengths = length indices).
  { rewrite E, (Permutation_length P). now rewrite length_seq. }
  destruct (slices_cover lengths indices L) as [C M].
  exists (slices indices lengths). split; [reflexivity|].
  split; [exact M|]. split; [now rewrite C|].
  apply Forall_map, Forall_forall. intros part Hp. cbn [well_formed].
  split; [exact W|]. apply Forall_forall. intros k Hk.
  assert (Hin : In k (concat (slices indices lengths)))
    by (apply in_concat; eauto).
  rewrite C in Hin. apply (Permutation_in _ P), in_seq in Hin. lia.
Qed.

End SplitParts.

(** X14.  [random_split] works for any number of parts: given a
    well-formed dataset and lengths that add up to its size, it returns one
    subset per requested length, each of exactly that length and each
    well-formed (so a loader over it never meets a bad index), and the
    index lists of the subsets, put end to end, are a permutation of all
    the positions of the dataset: no sample is lost or shared. *)
Theorem random_split_any_number_of_parts
    (G : TorchGenerator) (d : DataLoading.dataset) (lengths : list nat)
    (s : tg_state G) :
  DataLoading.well_formed d ->
  list_sum lengths = DataLoading.len d ->
  exists parts,
    fst (DataLoading.random_split G d lengths s)
      = Ok (map (DataLoading.Subset d) parts)
    /\ map DataLoading.len (map (DataLoading.Subset d) parts) = lengths
    /\ Permutation (concat parts) (seq 0 (DataLoading.len d))
    /\ Forall DataLoading.well_formed (map (DataLoading.Subset d) parts).
Proof.
  intros W E.
  destruct (random_split_parts G d lengths s W E) as (parts & R & M & P & F).
  exists parts. split; [exact R|]. split; [|split; assumption].
  rewrite map_map. exact M.
Qed.

Lemma random_split_parts_witness :
  let d := DataLoading.Tensors [1; 2; 3; 4; 5] [3; 5; 7; 9; 11] in
  exists parts,
    fst (DataLoading.random_split lcg_torch_generator d [2; 2; 1]%nat 7%Z)
      = Ok (map (DataLoading.Subset d) parts)
    /\ map DataLoading.len (map (DataLoading.Subset d) parts)
       = [2; 2; 1]%nat
    /\ Permutation (concat parts) (seq 0 (DataLoading.len d))
    /\ Forall DataLoading.well_formed (map (DataLoading.Subset d) parts).
Proof.
  apply (random_split_any_number_of_parts lcg_torch_generator
           (DataLoading.Tensors [1; 2; 3; 4; 5] [3; 5; 7; 9; 11])
           [2; 2; 1]%nat 7%Z).
  - reflexivity.
  - reflexivity.
Defined.

(** ** The training cells as a whole *)

Section Cells.

Import DataLoading.

Variable G : TorchGenerator.

Lemma batch_sampler_count ld s :
  (0 < dl_batch_size ld)%Z ->
  length (fst (batch_sampler G ld s))
  = batch_count (len (dl_dataset ld)) (dl_batch_size ld).
Proof.
  intros Hb. unfold batch_count.
  rewrite <- (length_batch_sampler G ld s Hb). now rewrite Nat2Z.id.
Qed.

Lemma epoch_train_effect lr ld st s :
  well_formed (dl_dataset ld) -> (0 < dl_batch_size ld)%Z ->
  let nb := batch_count (len (dl_dataset ld)) (dl_batch_size ld) in
  exists st' s',
    epoch_train G lr ld st s = (Ok st', s')
    /\ updates st' = (updates st + nb)%nat
    /\ length (losses st') = (length (losses st) + nb)%nat
    /\ val_losses st' = val_losses st.
Proof.
  intros W Hb nb. unfold epoch_train.
  rewrite (batches_batch_at G ld s W). cbn [bind].
  eexists _, _. split; [reflexivity|].
  destruct (train_batches_count lr
              (map (batch_at (dl_dataset ld)) (fst (batch_sampler G ld s)))
              st) as (U & L & V).
  rewrite length_map, batch_sampler_count in U, L by exact Hb.
  repeat split; assumption.
Qed.

Lemma epoch_validate_effect ld st s :
  well_formed (dl_dataset ld) -> (0 < dl_batch_size ld)%Z ->
  let nb := batch_count (len (dl_dataset ld)) (dl_batch_size ld) in
  exists st' s',
    epoch_validate G ld st s = (Ok st', s')
    /\ same_training st' st
    /\ length (val_losses st') = (length (val_losses st) + nb)%nat
    /\ (dl_shuffle ld = false -> s' = s).
Proof.
  intros W Hb nb. unfold epoch_validate.
  rewrite (batches_batch_at G ld s W). cbn [bind].
  eexists _, _. split; [reflexivity|].
  destruct (validate_batches_frame
              (map (batch_at (dl_dataset ld)) (fst (batch_sampler G ld s)))
              st) as (Fw & Fb & Fl & Fu & Fv).
  split; [repeat split; assumption|]. split.
  - rewrite Fv, length_app, !length_map.
    now rewrite batch_sampler_count by exact Hb.
  - intros U. now destruct (batch_sampler_positions G ld s) as (_ & _ & H);
      destruct (H U).
Qed.

Lemma fit_effect n_epochs lr train_loader val_loader : forall st s,
  well_formed (dl_dataset train_loader) ->
  well_formed (dl_dataset val_loader) ->
  (0 < dl_batch_size train_loader)%Z ->
  (0 < dl_batch_size val_loader)%Z ->
  let nt := batch_count (len (dl_dataset train_loader))
              (dl_batch_size train_loader) in
  let nv := batch_count (len (dl_dataset val_loader))
              (dl_batch_size val_loader) in
  exists st' s',
    fit G n_epochs lr train_loader val_loader st s = (Ok st', s')
    /\ updates st' = (updates st + n_epochs * nt)%nat
    /\ length (losses st') = (length (losses st) + n_epochs * nt)%nat
    /\ length (val_losses st')
       = (length (val_losses st) + n_epochs * nv)%nat.
Proof.
  intros st s Wt Wv Ht Hv nt nv. revert st s.
  induction n_epochs as [|k IH]; intros st s.
  - exists st, s. cbn [fit]. repeat split; lia.
  - cbn [fit].
    destruct (epoch_train_effect lr train_loader st s Wt Ht)
      as (st1 & s1 & -> & U1 & L1 & V1).
    destruct (epoch_validate_effect val_loader st1 s1 Wv Hv)
      as (st2 & s2 & -> & (_ & _ & L2 & U2) & V2 & _).
    destruct (IH st2 s2) as (st' & s' & -> & U & L & V).
    exists st', s'. split; [reflexivity|].
    fold nt in U1, L1. fold nv in V2.
    rewrite U, L, V, U2, L2, V2, U1, L1, V1. repeat split; lia.
Qed.

End Cells.

(** X15.  The last training cell never fails on well-formed data, and its
    histories grow by one entry per batch: after [n_epochs] epochs the
    number of parameter updates and of recorded training losses has grown
    by [n_epochs] times the number of training batches, and the number of
    validation losses by [n_epochs] times the number of validation batches
    (5000 and 1000 for the notebook's 1000 epochs, 80 training samples in
    batches of 16 and 20 validation samples in one batch). *)
Theorem histories_grow_by_one_entry_per_batch
    (G : TorchGenerator) (n_epochs : nat) (lr : R)
    (train_loader val_loader : DataLoading.loader)
    (st : DataLoading.run) (s : tg_state G) :
  DataLoading.well_formed (DataLoading.dl_dataset train_loader) ->
  DataLoading.well_formed (DataLoading.dl_dataset val_loader) ->
  (0 < DataLoading.dl_batch_size train_loader)%Z ->
  (0 < DataLoading.dl_batch_size val_loader)%Z ->
  let nt := batch_count
              (DataLoading.len (DataLoading.dl_dataset train_loader))
              (DataLoading.dl_batch_size train_loader) in
  let nv := batch_count
              (DataLoading.len (DataLoading.dl_dataset val_loader))
              (DataLoading.dl_batch_size val_loader) in
  exists st' s',
    DataLoading.fit G n_epochs lr train_loader val_loader st s = (Ok st', s')
    /\ DataLoading.updates st'
       = (DataLoading.updates st + n_epochs * nt)%nat
    /\ length (DataLoading.losses st')
       = (length (DataLoading.losses st) + n_epochs * nt)%nat
    /\ length (DataLoading.val_losses st')
       = (length (DataLoading.val_losses st) + n_epochs * nv)%nat.
Proof.
  intros Wt Wv Ht Hv. now apply fit_effect.
Qed.

Lemma histories_grow_witness :
  let tl := {| DataLoading.dl_dataset :=
                 DataLoading.Tensors [1; 2; 3] [3; 5; 7];
               DataLoading.dl_batch_size := 2;
               DataLoading.dl_shuffle := true |} in
  let vl := {| DataLoading.dl_dataset := DataLoading.Tensors [4] [9];
               DataLoading.dl_batch_size := 20;
               DataLoading.dl_shuffle := false |} in
  let st := DataLoading.mkRun (DataLoading.mkModel 0 0 true) [] [] 0 in
  let nt := batch_count
              (DataLoading.len (DataLoading.dl_dataset tl))
              (DataLoading.dl_batch_size tl) in
  let nv := batch_count
              (DataLoading.len (DataLoading.dl_dataset vl))
              (DataLoading.dl_batch_size vl) in
  exists st' s',
    DataLoading.fit lcg_torch_generator 4 0.1 tl vl st 5%Z = (Ok st', s')
    /\ DataLoading.updates st' = (DataLoading.updates st + 4 * nt)%nat
    /\ length (DataLoading.losses st')
       = (length (DataLoading.losses st) + 4 * nt)%nat
    /\ length (DataLoading.val_losses st')
       = (length (DataLoading.val_losses st) + 4 * nv)%nat.
Proof.
  apply (histories_grow_by_one_entry_per_batch lcg_torch_generator 4 0.1
           {| DataLoading.dl_dataset :=
                DataLoading.Tensors [1; 2; 3] [3; 5; 7];
              DataLoading.dl_batch_size := 2;
              DataLoading.dl_shuffle := true |}
           {| DataLoading.dl_dataset := DataLoading.Tensors [4] [9];
              DataLoading.dl_batch_size := 20;
              DataLoading.dl_shuffle := false |}
           (DataLoading.mkRun (DataLoading.mkModel 0 0 true) [] [] 0) 5%Z).
  - reflexivity.
  - reflexivity.
  - reflexivity.
  - reflexivity.
Defined.

Example notebook_batch_counts :
  batch_count 80 16 = 5%nat /\ batch_count 20 20 = 1%nat.
Proof. split; reflexivity. Qed.

(** ** Validation only observes *)

Section Observer.

Import DataLoading.

Lemma same_training_refl st : same_training st st.
Proof. repeat split. Qed.

Lemma same_training_trans st1 st2 st3 :
  same_training st1 st2 -> same_training st2 st3 -> same_training st1 st3.
Proof.
  intros (A1 & B1 & C1 & D1) (A2 & B2 & C2 & D2).
  repeat split; congruence.
Qed.

(** A training step reads the weight and the bias and nothing else of the
    model: it switches to train mode before it predicts. *)
Lemma train_step_same lr m1 m2 x y :
  weight m1 = weight m2 -> bias m1 = bias m2 ->
  train_step lr m1 x y = train_step lr m2 x y.
Proof.
  intros Ew Eb. unfold train_step, forward, set_train.
  cbn [weight bias training]. now rewrite Ew, Eb.
Qed.

Lemma train_batch_same lr st1 st2 batch :
  same_training st1 st2 ->
  same_training (train_batch lr st1 batch) (train_batch lr st2 batch).
Proof.
  intros (Ew & Eb & El & Eu). unfold train_batch.
  rewrite (train_step_same lr (mdl st1) (mdl st2) _ _ Ew Eb).
  destruct (train_step lr (mdl st2) (fst batch) (snd batch)) as [m' l].
  repeat split; cbn [mdl losses updates]; congruence.
Qed.

Lemma train_batches_same lr bs : forall st1 st2,
  same_training st1 st2 ->
  same_training (fold_left (train_batch lr) bs st1)
                (fold_left (train_batch lr) bs st2).
Proof.
  induction bs as [|batch bs IH]; intros st1 st2 H; simpl; [exact H|].
  apply IH. now apply train_batch_same.
Qed.

Variable G : TorchGenerator.

Lemma fit_observes n_epochs lr train_loader val_loader : forall st1 st2 s,
  well_formed (dl_dataset train_loader) ->
  well_formed (dl_dataset val_loader) ->
  dl_shuffle val_loader = false ->
  same_training st1 st2 ->
  exists stf stt s',
    fit G n_epochs lr train_loader val_loader st1 s = (Ok stf, s')
    /\ train_loop G n_epochs lr train_loader st2 s = (Ok stt, s')
    /\ same_training stf stt.
Proof.
  intros st1 st2 s Wt Wv U. revert st1 st2 s.
  induction n_epochs as [|k IH]; intros st1 st2 s H.
  - exists st1, st2, s. repeat split; apply H.
  - cbn [fit train_loop]. unfold epoch_train, epoch_validate.
    rewrite (batches_batch_at G train_loader s Wt). cbn [bind].
    set (s1 := snd (batch_sampler G train_loader s)).
    set (bt := map (batch_at (dl_dataset train_loader)) _).
    rewrite (batches_batch_at G val_loader s1 Wv). cbn [bind].
    destruct (batch_sampler_positions G val_loader s1) as (_ & _ & S).
    destruct (S U) as [_ ->].
    set (bv := map (batch_at (dl_dataset val_loader)) _).
    apply IH.
    destruct (validate_batches_frame bv (fold_left (train_batch lr) bt st1))
      as (Fw & Fb & Fl & Fu & _).
    apply (same_training_trans _ (fold_left (train_batch lr) bt st1)).
    + repeat split; assumption.
    + now apply train_batches_same.
Qed.

End Observer.

(** X16.  Validation only observes.  With a validation loader that does
    not shuffle, the training cell with validation and the training cell
    without it, started from the same state and random generator, end
    with the same weight, bias, training losses and number of updates, and
    leave the generator in the same state: the validation passes change
    nothing that training depends on. *)
Theorem validation_does_not_influence_training
    (G : TorchGenerator) (n_epochs : nat) (lr : R)
    (train_loader val_loader : DataLoading.loader)
    (st : DataLoading.run) (s : tg_state G) :
  DataLoading.well_formed (DataLoading.dl_dataset train_loader) ->
  DataLoading.well_formed (DataLoading.dl_dataset val_loader) ->
  DataLoading.dl_shuffle val_loader = false ->
  exists stf stt s',
    DataLoading.fit G n_epochs lr train_loader val_loader st s
      = (Ok stf, s')
    /\ DataLoading.train_loop G n_epochs lr train_loader st s = (Ok stt, s')
    /\ same_training stf stt.
Proof.
  intros Wt Wv U.
  apply fit_observes; try assumption. apply same_training_refl.
Qed.

Lemma validation_does_not_influence_witness :
  let tl := {| DataLoading.dl_dataset :=
                 DataLoading.Tensors [1; 2; 3] [3; 5; 7];
               DataLoading.dl_batch_size := 2;
               DataLoading.dl_shuffle := true |} in
  let vl := {| DataLoading.dl_dataset := DataLoading.Tensors [4] [9];
               DataLoading.dl_batch_size := 20;
               DataLoading.dl_shuffle := false |} in
  let st := DataLoading.mkRun (DataLoading.mkModel 0 0 true) [] [] 0 in
  exists stf stt s',
    DataLoading.fit lcg_torch_generator 3 0.1 tl vl st 5%Z = (Ok stf, s')
    /\ DataLoading.train_loop lcg_torch_generator 3 0.1 tl st 5%Z
       = (Ok stt, s')
    /\ same_training stf stt.
Proof.
  apply (validation_does_not_influence_training lcg_torch_generator 3 0.1
           {| DataLoading.dl_dataset :=
                DataLoading.Tensors [1; 2; 3] [3; 5; 7];
              DataLoading.dl_batch_size := 2;
              DataLoading.dl_shuffle := true |}
           {| DataLoading.dl_dataset := DataLoading.Tensors [4] [9];
              DataLoading.dl_batch_size := 20;
              DataLoading.dl_shuffle := false |}
           (DataLoading.mkRun (DataLoading.mkModel 0 0 true) [] [] 0) 5%Z).
  - reflexivity.
  - reflexivity.
  - reflexivity.
Defined.

(** ** Full-batch training through a loader *)

Lemma sum_over_Permutation {T : Type} (f : T -> R) l l' :
  Permutation l l' -> sum_over f l = sum_over f l'.
Proof.
  unfold sum_over.
  induction 1 as [|x l l' _ IH|x z l|l l' l'' _ IH1 _ IH2]; simpl.
  - reflexivity.
  - now rewrite IH.
  - ring.
  - now rewrite IH1.
Qed.

(** The quantities of the NumPy step depend on the batch only as a bag of
    samples: reordering the samples changes none of them. *)
Lemma step_Permutation lr p (x1 y1 x2 y2 : ndarray) :
  length x1 = length y1 -> length x2 = length y2 ->
  Permutation (combine y1 x1) (combine y2 x2) ->
  NumPyGD.step lr x1 y1 p = NumPyGD.step lr x2 y2 p
  /\ NumPyGD.loss p x1 y1 = NumPyGD.loss p x2 y2.
Proof.
  intros E1 E2 P.
  assert (Ga : NumPyGD.a_grad p x1 y1 = NumPyGD.a_grad p x2 y2).
  { rewrite !a_grad_samplewise, (Permutation_length P).
    now rewrite (sum_over_Permutation _ _ _ P). }
  assert (Gb : NumPyGD.b_grad p x1 y1 = NumPyGD.b_grad p x2 y2).
  { rewrite !b_grad_samplewise by assumption.
    rewrite (Permutation_length P).
    now rewrite (sum_over_Permutation _ _ _ P). }
  split.
  - unfold NumPyGD.step. now rewrite Ga, Gb.
  - rewrite !loss_samplewise, (Permutation_length P).
    now rewrite (sum_over_Permutation _ _ _ P).
Qed.

Section FullBatch.

Import DataLoading.

Lemma batch_loop_single (n : nat) (order : list nat) :
  length order = n -> (0 < n)%nat ->
  batch_loop (Z.of_nat n) order [] = [order].
Proof.
  intros L Hn.
  assert (Hb : (0 < Z.of_nat n)%Z) by lia.
  destruct (batch_loop_count (Z.of_nat n) order Hb) as (C & _).
  pose proof (concat_batch_loop (Z.of_nat n) order []) as K.
  cbn [app] in K. rewrite L in C.
  assert (C1 : length (batch_loop (Z.of_nat n) order []) = 1%nat).
  { apply Nat2Z.inj. rewrite C. symmetry.
    apply (Z.div_unique_pos _ _ _ (Z.of_nat n - 1)); lia. }
  destruct (batch_loop (Z.of_nat n) order []) as [|b [|b' bs]];
    try discriminate.
  simpl in K. rewrite app_nil_r in K. now subst.
Qed.

Lemma swapped_items_tensors (x y : tensor) :
  length x = length y ->
  map (fun k => (snd (item_at (Tensors x y) k),
                 fst (item_at (Tensors x y) k))) (seq 0 (length x))
  = combine y x.
Proof.
  cbn [item_at fst snd].
  revert y. induction x as [|x0 x IH]; intros [|y0 y] E; simpl in *;
    try reflexivity; try discriminate.
  f_equal. rewrite <- seq_shift, map_map. apply IH. lia.
Qed.

Variable G : TorchGenerator.

Lemma full_batch_epoch lr x y shuffle st s :
  length x = length y -> (0 < length x)%nat ->
  let ld := {| dl_dataset := Tensors x y;
               dl_batch_size := Z.of_nat (length x);
               dl_shuffle := shuffle |} in
  let p := NumPyGD.mkParams (bias (mdl st)) (weight (mdl st)) in
  exists st' s',
    epoch_train G lr ld st s = (Ok st', s')
    /\ NumPyGD.mkParams (bias (mdl st')) (weight (mdl st'))
       = NumPyGD.step lr x y p
    /\ losses st' = losses st ++ [NumPyGD.loss p x y]
    /\ updates st' = S (updates st).
Proof.
  intros E Hn ld p. unfold epoch_train.
  assert (W : well_formed (dl_dataset ld)) by exact E.
  rewrite (batches_batch_at G ld s W). cbn [bind].
  eexists _, _. split; [reflexivity|].
  unfold batch_sampler. cbn [dl_shuffle dl_dataset dl_batch_size ld len].
  pose proof (sampler_Permutation G shuffle (length x) s) as P.
  destruct (sampler G shuffle (length x) s) as [order s']. cbn [fst] in *.
  assert (L : length order = length x)
    by (rewrite (Permutation_length P); apply length_seq).
  rewrite (batch_loop_single (length x) order L Hn).
  cbn [map fold_left]. unfold train_batch.
  set (xb := fst (batch_at (Tensors x y) order)).
  set (yb := snd (batch_at (Tensors x y) order)).
  destruct (train_step_is_numpy_step lr (mdl st) xb yb) as (Ha & Hw & Hl).
  fold p in Ha, Hw, Hl.
  destruct (train_step lr (mdl st) xb yb) as [m' l]. cbn [fst snd] in *.
  cbn [mdl losses updates].
  assert (Q : NumPyGD.step lr xb yb p = NumPyGD.step lr x y p
              /\ NumPyGD.loss p xb yb = NumPyGD.loss p x y).
  { apply step_Permutation.
    - unfold xb, yb, batch_at. cbn [fst snd]. now rewrite !length_map.
    - exact E.
    - unfold xb, yb, batch_at. cbn [fst snd]. rewrite combine_map_map.
      rewrite <- (swapped_items_tensors x y E).
      now apply Permutation_map. }
  destruct Q as [Qs Ql]. rewrite <- Qs, Hl, Ql.
  split; [|split; reflexivity].
  rewrite Ha, Hw. now destruct (NumPyGD.step lr xb yb p).
Qed.

End FullBatch.

(** X18.  Full-batch training through a loader is the NumPy loop: one
    epoch over [TensorDataset(x, y)] with the batch size equal to the
    number of samples performs one update that moves the bias and the
    weight exactly as one iteration of the NumPy loop moves [a] and [b] on
    the whole data, and records the loss that iteration computes; this
    holds whether the loader shuffles or not, because the update depends
    on the batch only as a collection of samples. *)
Theorem full_batch_epoch_is_the_numpy_step
    (G : TorchGenerator) (lr : R) (x_tensor y_tensor : DataLoading.tensor)
    (shuffle : bool) (st : DataLoading.run) (s : tg_state G) :
  length x_tensor = length y_tensor ->
  (0 < length x_tensor)%nat ->
  let ld := {| DataLoading.dl_dataset :=
                 DataLoading.Tensors x_tensor y_tensor;
               DataLoading.dl_batch_size := Z.of_nat (length x_tensor);
               DataLoading.dl_shuffle := shuffle |} in
  let p := NumPyGD.mkParams (DataLoading.bias (DataLoading.mdl st))
                            (DataLoading.weight (DataLoading.mdl st)) in
  exists st' s',
    DataLoading.epoch_train G lr ld st s = (Ok st', s')
    /\ DataLoading.bias (DataLoading.mdl st')
       = NumPyGD.a (NumPyGD.step lr x_tensor y_tensor p)
    /\ DataLoading.weight (DataLoading.mdl st')
       = NumPyGD.b (NumPyGD.step lr x_tensor y_tensor p)
    /\ DataLoading.losses st'
       = DataLoading.losses st ++ [NumPyGD.loss p x_tensor y_tensor]
    /\ DataLoading.updates st' = S (DataLoading.updates st).
Proof.
  intros E Hn ld p.
  destruct (full_batch_epoch G lr x_tensor y_tensor shuffle st s E Hn)
    as (st' & s' & H1 & H2 & H3 & H4).
  exists st', s'. split; [exact H1|]. fold p in H2, H3.
  rewrite <- H2. cbn [NumPyGD.a NumPyGD.b]. repeat split; assumption.
Qed.

Lemma full_batch_epoch_witness :
  let ld := {| DataLoading.dl_dataset :=
                 DataLoading.Tensors [1; 2; 3] [3; 5; 7];
               DataLoading.dl_batch_size := Z.of_nat (length [1; 2; 3]);
               DataLoading.dl_shuffle := true |} in
  let st := DataLoading.mkRun (DataLoading.mkModel 0 0 true) [] [] 0 in
  let p := NumPyGD.mkParams (DataLoading.bias (DataLoading.mdl st))
                            (DataLoading.weight (DataLoading.mdl st)) in
  exists st' s',
    DataLoading.epoch_train lcg_torch_generator 0.1 ld st 5%Z = (Ok st', s')
    /\ DataLoading.bias (DataLoading.mdl st')
       = NumPyGD.a (NumPyGD.step 0.1 [1; 2; 3] [3; 5; 7] p)
    /\ DataLoading.weight (DataLoading.mdl st')
       = NumPyGD.b (NumPyGD.step 0.1 [1; 2; 3] [3; 5; 7] p)
    /\ DataLoading.losses st'
       = DataLoading.losses st ++ [NumPyGD.loss p [1; 2; 3] [3; 5; 7]]
    /\ DataLoading.updates st' = S (DataLoading.updates st).
Proof.
  apply (full_batch_epoch_is_the_numpy_step lcg_torch_generator 0.1
           [1; 2; 3] [3; 5; 7] true
           (DataLoading.mkRun (DataLoading.mkModel 0 0 true) [] [] 0) 5%Z).
  - reflexivity.
  - simpl. lia.
Defined.

(** * Updates per epoch *)

Section Updates.

Import DataLoading.

Lemma length_descent lr bs : forall p,
  length (snd (descent lr bs p)) = length bs.
Proof.
  induction bs as [|batch bs IH]; intros p; simpl; [reflexivity|].
  specialize (IH (NumPyGD.step lr (fst batch) (snd batch) p)).
  destruct (descent lr bs (NumPyGD.step lr (fst batch) (snd batch) p)).
  simpl in *. now rewrite IH.
Qed.

(** The body of the mini-batch loop performs the update of the NumPy loop
    on its batch, and appends the loss of the batch at the parameters it
    started from. *)
Lemma train_batch_descent lr st batch :
  params_of (mdl (train_batch lr st batch))
  = NumPyGD.step lr (fst batch) (snd batch) (params_of (mdl st))
  /\ losses (train_batch lr st batch)
     = losses st
       ++ [NumPyGD.loss (params_of (mdl st)) (fst batch) (snd batch)]
  /\ updates (train_batch lr st batch) = S (updates st).
Proof.
  unfold train_batch.
  destruct (train_step_is_numpy_step lr (mdl st) (fst batch) (snd batch))
    as (Ha & Hw & Hl).
  destruct (train_step lr (mdl st) (fst batch) (snd batch)) as [m' l].
  cbn [fst snd mdl losses updates] in *. unfold params_of.
  rewrite Ha, Hw, Hl. split; [|split; reflexivity].
  now destruct (NumPyGD.step lr (fst batch) (snd batch)
                  (NumPyGD.mkParams (bias (mdl st)) (weight (mdl st)))).
Qed.

Lemma descent_cons lr batch bs p :
  descent lr (batch :: bs) p
  = (fst (descent lr bs (NumPyGD.step lr (fst batch) (snd batch) p)),
     NumPyGD.loss p (fst batch) (snd batch)
     :: snd (descent lr bs (NumPyGD.step lr (fst batch) (snd batch) p))).
Proof.
  simpl.
  now destruct (descent lr bs (NumPyGD.step lr (fst batch) (snd batch) p)).
Qed.

Lemma train_batches_descent lr bs : forall st,
  let st' := fold_left (train_batch lr) bs st in
  params_of (mdl st') = fst (descent lr bs (params_of (mdl st)))
  /\ losses st' = losses st ++ snd (descent lr bs (params_of (mdl st)))
  /\ updates st' = (updates st + length bs)%nat.
Proof.
  induction bs as [|batch bs IH]; intros st.
  - simpl. rewrite app_nil_r. repeat split. lia.
  - cbn [fold_left length]. rewrite descent_cons. cbn [fst snd].
    destruct (IH (train_batch lr st batch)) as (P & L & U).
    destruct (train_batch_descent lr st batch) as (P1 & L1 & U1).
    rewrite P1 in P, L. rewrite L1 in L. rewrite U1 in U.
    split; [exact P|]. split.
    + rewrite L, <- app_assoc. reflexivity.
    + rewrite U. lia.
Qed.

(** With batch size 1 every position makes a batch of its own. *)
Lemma batch_loop_ones (order : list nat) :
  batch_loop 1 order [] = map (fun k => [k]) order.
Proof.
  induction order as [|k order IH]; simpl; [reflexivity|].
  now rewrite IH.
Qed.

Variable G : TorchGenerator.

Lemma sampler_order shuffle n s :
  Permutation (fst (sampler G shuffle n s)) (seq 0 n)
  /\ (shuffle = false -> fst (sampler G shuffle n s) = seq 0 n)
  /\ length (fst (sampler G shuffle n s)) = n.
Proof.
  pose proof (sampler_Permutation G shuffle n s) as P.
  split; [exact P|]. split.
  - intros ->. now rewrite sampler_unshuffled.
  - rewrite (Permutation_length P). apply length_seq.
Qed.

Lemma single_sample_epoch lr d shuffle st s :
  well_formed d ->
  let ld := {| dl_dataset := d; dl_batch_size := 1;
               dl_shuffle := shuffle |} in
  let order := fst (sampler G shuffle (len d) s) in
  let bs := map (fun k => batch_at d [k]) order in
  exists st' s',
    epoch_train G lr ld st s = (Ok st', s')
    /\ params_of (mdl st') = fst (descent lr bs (params_of (mdl st)))
    /\ losses st' = losses st ++ snd (descent lr bs (params_of (mdl st)))
    /\ updates st' = (updates st + len d)%nat.
Proof.
  intros W ld order bs. unfold epoch_train.
  rewrite (batches_batch_at G ld s W). cbn [bind].
  eexists _, _. split; [reflexivity|].
  unfold batch_sampler. cbn [dl_shuffle dl_dataset dl_batch_size ld].
  destruct (sampler_order shuffle (len d) s) as (_ & _ & L).
  unfold bs, order. clear bs order.
  destruct (sampler G shuffle (len d) s) as [o s']. cbn [fst] in *.
  rewrite batch_loop_ones, map_map.
  destruct (train_batches_descent lr (map (fun k => batch_at d [k]) o) st)
    as (P & Lo & U).
  rewrite length_map, L in U.
  repeat split; assumption.
Qed.

Lemma swapped_items (d : dataset) :
  combine (map snd (items d)) (map fst (items d))
  = map (fun k => (snd (item_at d k), fst (item_at d k)))
      (seq 0 (len d)).
Proof.
  unfold items. rewrite combine_map_map, map_map. reflexivity.
Qed.

Lemma whole_set_epoch lr d shuffle st s :
  well_formed d -> (0 < len d)%nat ->
  let ld := {| dl_dataset := d; dl_batch_size := Z.of_nat (len d);
               dl_shuffle := shuffle |} in
  let p := params_of (mdl st) in
  let x := map fst (items d) in
  let y := map snd (items d) in
  exists st' s',
    epoch_train G lr ld st s = (Ok st', s')
    /\ params_of (mdl st') = NumPyGD.step lr x y p
    /\ losses st' = losses st ++ [NumPyGD.loss p x y]
    /\ updates st' = (updates st + 1)%nat.
Proof.
  intros W Hn ld p x y. unfold epoch_train.
  rewrite (batches_batch_at G ld s W). cbn [bind].
  eexists _, _. split; [reflexivity|].
  unfold batch_sampler. cbn [dl_shuffle dl_dataset dl_batch_size ld].
  destruct (sampler_order shuffle (len d) s) as (P & _ & L).
  destruct (sampler G shuffle (len d) s) as [order s']. cbn [fst] in *.
  rewrite (batch_loop_single (len d) order L Hn).
  cbn [map fold_left].
  destruct (train_batch_descent lr st (batch_at d order)) as (P1 & L1 & U1).
  fold p in P1, L1.
  assert (Q : NumPyGD.step lr (fst (batch_at d order))
                (snd (batch_at d order)) p
              = NumPyGD.step lr x y p
              /\ NumPyGD.loss p (fst (batch_at d order))
                   (snd (batch_at d order))
                 = NumPyGD.loss p x y).
  { apply step_Permutation.
    - unfold batch_at. cbn [fst snd]. now rewrite !length_map.
    - unfold x, y. now rewrite !length_map.
    - unfold x, y. rewrite swapped_items.
      unfold batch_at. cbn [fst snd]. rewrite combine_map_map.
      now apply Permutation_map. }
  destruct Q as [Qs Ql]. rewrite <- Qs, <- Ql.
  split; [exact P1|]. split; [exact L1|]. rewrite U1. lia.
Qed.

End Updates.

(** C9.  For a well-formed training set of [N] samples ([N > 0]), the
    mini-batch training loop supports both extremes.  One epoch over a
    loader with batch size 1 runs to the end and performs exactly [N]
    parameter updates: it visits the positions in an order that is a
    permutation of [0, N) (the original order without shuffling) and, for
    each position in turn, performs the gradient step of the NumPy loop on
    the sample found there, each from the parameters the step before left;
    the bias and weight it ends with are those after the last of the [N]
    steps, and the [N] losses it appends are the losses of these steps.
    One epoch over a loader with batch size [N] performs exactly one
    update, the full-batch step of the NumPy loop on the whole training
    set, and appends the single loss of that step. *)
Theorem updates_per_epoch
    (G : TorchGenerator) (lr : R) (d : DataLoading.dataset) (shuffle : bool)
    (st : DataLoading.run) (s : tg_state G) :
  DataLoading.well_formed d ->
  (0 < DataLoading.len d)%nat ->
  let p := params_of (DataLoading.mdl st) in
  (exists ld st' s' order,
     DataLoading.DataLoader d 1 shuffle = Ok ld
     /\ DataLoading.epoch_train G lr ld st s = (Ok st', s')
     /\ Permutation order (seq 0 (DataLoading.len d))
     /\ (shuffle = false -> order = seq 0 (DataLoading.len d))
     /\ length order = DataLoading.len d
     /\ let bs := map (fun k => batch_at d [k]) order in
        params_of (DataLoading.mdl st') = fst (descent lr bs p)
        /\ DataLoading.losses st'
           = DataLoading.losses st ++ snd (descent lr bs p)
        /\ length (snd (descent lr bs p)) = DataLoading.len d
        /\ DataLoading.updates st'
           = (DataLoading.updates st + DataLoading.len d)%nat)
  /\
  (exists ld st' s',
     DataLoading.DataLoader d (Z.of_nat (DataLoading.len d)) shuffle = Ok ld
     /\ DataLoading.epoch_train G lr ld st s = (Ok st', s')
     /\ let x_train := map fst (items d) in
        let y_train := map snd (items d) in
        params_of (DataLoading.mdl st') = NumPyGD.step lr x_train y_train p
        /\ DataLoading.losses st'
           = DataLoading.losses st ++ [NumPyGD.loss p x_train y_train]
        /\ DataLoading.updates st' = (DataLoading.updates st + 1)%nat).
Proof.
  intros W N p. split.
  - destruct (single_sample_epoch G lr d shuffle st s W)
      as (st' & s' & E & P & L & U).
    destruct (sampler_order G shuffle (DataLoading.len d) s)
      as (Po & Uo & Lo).
    eexists _, st', s', _. split; [reflexivity|]. split; [exact E|].
    split; [exact Po|]. split; [exact Uo|]. split; [exact Lo|].
    cbv zeta. fold p in P, L. split; [exact P|]. split; [exact L|].
    split; [|exact U].
    now rewrite length_descent, length_map.
  - unfold DataLoading.DataLoader.
    destruct (Z.leb_spec (Z.of_nat (DataLoading.len d)) 0) as [L|_]; [lia|].
    destruct (whole_set_epoch G lr d shuffle st s W N)
      as (st' & s' & E & P & L & U).
    eexists _, st', s'. split; [reflexivity|]. split; [exact E|].
    cbv zeta. repeat split; assumption.
Qed.

Lemma updates_per_epoch_witness :
  let d := DataLoading.Tensors [1; 2; 3] [3; 5; 7] in
  let st := DataLoading.mkRun (DataLoading.mkModel 0 0 true) [] [] 0 in
  let p := params_of (DataLoading.mdl st) in
  (exists ld st' s' order,
     DataLoading.DataLoader d 1 true = Ok ld
     /\ DataLoading.epoch_train lcg_torch_generator 0.1 ld st 5%Z
        = (Ok st', s')
     /\ Permutation order (seq 0 (DataLoading.len d))
     /\ (true = false -> order = seq 0 (DataLoading.len d))
     /\ length order = DataLoading.len d
     /\ let bs := map (fun k => batch_at d [k]) order in
        params_of (DataLoading.mdl st') = fst (descent 0.1 bs p)
        /\ DataLoading.losses st'
           = DataLoading.losses st ++ snd (descent 0.1 bs p)
        /\ length (snd (descent 0.1 bs p)) = DataLoading.len d
        /\ DataLoading.updates st'
           = (DataLoading.updates st + DataLoading.len d)%nat)
  /\
  (exists ld st' s',
     DataLoading.DataLoader d (Z.of_nat (DataLoading.len d)) true = Ok ld
     /\ DataLoading.epoch_train lcg_torch_generator 0.1 ld st 5%Z
        = (Ok st', s')
     /\ let x_train := map fst (items d) in
        let y_train := map snd (items d) in
        params_of (DataLoading.mdl st') = NumPyGD.step 0.1 x_train y_train p
        /\ DataLoading.losses st'
           = DataLoading.losses st ++ [NumPyGD.loss p x_train y_train]
        /\ DataLoading.updates st' = (DataLoading.updates st + 1)%nat).
Proof.
  apply (updates_per_epoch lcg_torch_generator 0.1
           (DataLoading.Tensors [1; 2; 3] [3; 5; 7]) true
           (DataLoading.mkRun (DataLoading.mkModel 0 0 true) [] [] 0) 5%Z).
  - reflexivity.
  - simpl. lia.
Defined.

(** On the batch [x = [1, 2]], [y = [3, 5]] from [a = b = 0] with
    [lr = 0.1], the two updates of an unshuffled epoch with batch size 1
    end at [(1.24, 1.88)]; the single update of the full-batch epoch ends
    at [(0.8, 1.3)] ([numpy_step_example]). *)
Example per_sample_descent_example :
  fst (descent 0.1 [([1], [3]); ([2], [5])] (NumPyGD.mkParams 0 0))
  = NumPyGD.mkParams 1.24 1.88.
Proof.
  rewrite !descent_cons. cbn [fst snd descent].
  unfold NumPyGD.step, NumPyGD.a_grad, NumPyGD.b_grad, NumPyGD.error,
    NumPyGD.yhat, mean, arr_mul, arr_sub, ewise2, bcast_add, bcast_mul.
  simpl. f_equal; lra.
Qed.
